(** * The secret-message grid printer ([OAS/joe.py])

    A shallow embedding of the program and the proofs of its properties.

    Python values are modelled as follows.
    - A [str] is the list of its Unicode code points ([pystr]).
    - An [int] is a [Z].
    - A raised exception is the [Err] branch of [result].
    - The objects of the libraries the program calls (the document tree of
      [bs4], the response of [requests]) are data types of what the program
      observes of them; the HTML parser, the network and the Unicode digit
      table are parameters of the development. *)

From stdpp Require Import base tactics option list numbers strings.
From Stdlib Require Import ZArith NArith Lia.

Set Warnings "-register-all".
Open Scope Z_scope.

(** ** Strings *)

Definition char := N.
Abbreviation pystr := (list char).

(** The code points of an ASCII literal. *)
Definition lit (s : string) : pystr :=
  map (fun a => N.of_nat (Ascii.nat_of_ascii a)) (String.list_ascii_of_string s).

Definition SPACE : char := 32%N.
Definition NBSP : char := 160%N.
Definition UNDERSCORE : char := 95%N.
Definition PLUS : char := 43%N.
Definition MINUS : char := 45%N.
Definition QUESTION : char := 63%N.
Definition ZERO : char := 48%N.

Definition in_range (lo hi c : N) : bool := ((lo <=? c) && (c <=? hi))%N.

(** [str.isspace] on one code point, which is also what [\s] matches in a
    [str] pattern and what [str.strip()] removes. *)
Definition isspace (c : char) : bool :=
  in_range 9 13 c || in_range 28 32 c || (c =? 133)%N || (c =? 160)%N
  || (c =? 5760)%N || in_range 8192 8202 c || (c =? 8232)%N || (c =? 8233)%N
  || (c =? 8239)%N || (c =? 8287)%N || (c =? 12288)%N.

(** [s.replace(old, new)] for one-character [old] and [new]. *)
Definition replace_char (old new : char) (s : pystr) : pystr :=
  map (fun c => if (c =? old)%N then new else c) s.

(** [re.sub(r"\s+", " ", s)]: every maximal run of whitespace becomes one
    space. [in_run] tells that the previous character was whitespace. *)
Fixpoint sub_ws_runs (in_run : bool) (s : pystr) : pystr :=
  match s with
  | [] => []
  | c :: s' =>
      if isspace c
      then (if in_run then sub_ws_runs true s' else SPACE :: sub_ws_runs true s')
      else c :: sub_ws_runs false s'
  end.

Fixpoint lstrip (s : pystr) : pystr :=
  match s with
  | [] => []
  | c :: s' => if isspace c then lstrip s' else s
  end.

Definition rstrip (s : pystr) : pystr := rev (lstrip (rev s)).

Definition strip (s : pystr) : pystr := lstrip (rstrip s).

Definition _clean_text (s : pystr) : pystr :=
  let s := replace_char NBSP SPACE s in
  strip (sub_ws_runs false s).

(** ** Exceptions *)

Inductive exn :=
| ValueError (msg : string)
| IndexError
| HTTPError (status : Z)
| RequestException (detail : string).

Inductive result (A : Type) :=
| Ok (a : A)
| Err (e : exn).
Arguments Ok {A} a.
Arguments Err {A} e.

Definition bind {A B} (r : result A) (k : A -> result B) : result B :=
  match r with
  | Ok a => k a
  | Err e => Err e
  end.

Notation "'try!' x ':=' r 'in' k" := (bind r (fun x => k))
  (at level 10, x name, r at level 100, k at level 200).

Definition is_Ok {A} (r : result A) : Prop := exists a, r = Ok a.

(** ** The built-in [int] on a [str]

    [int(s)] first rewrites [s] to an ASCII buffer: a character below 127
    is kept, other whitespace becomes a space, another decimal digit
    becomes its ASCII digit, and the buffer ends in [?] at the first
    character that is none of these. The buffer is then read as: whitespace, an optional
    sign, digits with single underscores between them, whitespace. *)

Definition Py_ISSPACE (c : char) : bool := in_range 9 13 c || (c =? 32)%N.
Definition is_digit (c : char) : bool := in_range 48 57 c.
Definition is_digit_or_us (c : char) : bool := is_digit c || (c =? UNDERSCORE)%N.

Fixpoint skip_space (b : pystr) : pystr :=
  match b with
  | [] => []
  | c :: b' => if Py_ISSPACE c then skip_space b' else b
  end.

(** The digits and underscores at the front of the buffer, and the rest. *)
Fixpoint span_digits (b : pystr) : pystr * pystr :=
  match b with
  | [] => ([], [])
  | c :: b' =>
      if is_digit_or_us c
      then let '(body, rest) := span_digits b' in (c :: body, rest)
      else ([], b)
  end.

(** No underscore follows an underscore and none is last; [prev] tells that
    the previous character was an underscore. *)
Fixpoint underscores_ok (prev : bool) (body : pystr) : bool :=
  match body with
  | [] => negb prev
  | c :: body' =>
      if (c =? UNDERSCORE)%N
      then (if prev then false else underscores_ok true body')
      else underscores_ok false body'
  end.

Definition digits_of (body : pystr) : pystr := List.filter is_digit body.

Definition digit_value (c : char) : Z := Z.of_N c - 48.

Definition decimal_value (ds : pystr) : Z :=
  fold_left (fun acc c => 10 * acc + digit_value c) ds 0.

Section Runtime.

(** The decimal value of a code point from 127 on, from the Unicode
    database of the interpreter ([None]: not a decimal digit). *)
Variable unicode_decimal : char -> option N.

(** [sys.get_int_max_str_digits()]: the most digits [int] converts;
    [0] is no limit. *)
Variable int_max_str_digits : nat.

Fixpoint to_ascii_buffer (s : pystr) : pystr :=
  match s with
  | [] => []
  | c :: s' =>
      if (c <? 127)%N then c :: to_ascii_buffer s'
      else if isspace c then SPACE :: to_ascii_buffer s'
      else match unicode_decimal c with
           | Some d => (ZERO + d)%N :: to_ascii_buffer s'
           | None => [QUESTION]
           end
  end.

Definition over_digit_limit (n : nat) : bool :=
  ((0 <? int_max_str_digits) && (int_max_str_digits <? n))%nat.

(** The unsigned part: [None] is the [ValueError] of [int]. *)
Definition long_from_string (b : pystr) : option Z :=
  let '(body, rest) := span_digits b in
  match body with
  | [] => None
  | c :: _ =>
      if (c =? UNDERSCORE)%N then None
      else if negb (underscores_ok false body) then None
      else if over_digit_limit (length (digits_of body)) then None
      else match skip_space rest with
           | [] => Some (decimal_value (digits_of body))
           | _ :: _ => None
           end
  end.

Definition py_int (s : pystr) : option Z :=
  match skip_space (to_ascii_buffer s) with
  | [] => None
  | c :: b' =>
      if (c =? PLUS)%N then long_from_string b'
      else if (c =? MINUS)%N then Z.opp <$> long_from_string b'
      else long_from_string (c :: b')
  end.

End Runtime.

(** ** The document tree

    What the program observes of the tree that [BeautifulSoup(html,
    "html.parser")] builds: text, strings that [get_text] leaves out
    (comments and the like), and tags with their contents in document
    order. *)

Inductive node :=
| NavigableString (s : pystr)
| Comment (s : pystr)
| Tag (name : string) (contents : list node).

(** [n.descendants]: every node below [n], in document order. *)
Fixpoint descendants (n : node) : list node :=
  match n with
  | Tag _ contents => flat_map (fun c => c :: descendants c) contents
  | _ => []
  end.

Definition is_tag_in (names : list string) (n : node) : bool :=
  match n with
  | Tag name _ => bool_decide (name ∈ names)
  | _ => false
  end.

(** [n.find_all(names)] and [n.find(name)]. *)
Definition find_all (names : list string) (n : node) : list node :=
  List.filter (is_tag_in names) (descendants n).

Definition find (name : string) (n : node) : option node :=
  head (find_all [name] n).

Definition string_of (n : node) : option pystr :=
  match n with
  | NavigableString s => Some s
  | _ => None
  end.

(** [n.get_text()]: the strings below [n], joined. *)
Definition get_text (n : node) : pystr := concat (omap string_of (descendants n)).

(** ** Cells and the table parser *)

Record Cell := mkCell { x : Z; y : Z; ch : pystr }.

Definition is_empty {A} (l : list A) : bool :=
  match l with
  | [] => true
  | _ :: _ => false
  end.

(** [next((c for c in ch if c != " "), dflt)]. *)
Definition first_non_space (ch : pystr) (dflt : char) : char :=
  default dflt (List.find (fun c => negb (c =? SPACE)%N) ch).

(** Lines 59 to 63: the character of a row from the cleaned text of its
    second cell. The pattern [c0 :: _ :: _] is [len(ch) > 1], and [c0] is
    [ch[0]]. *)
Definition choose_ch (ch_txt : pystr) : pystr :=
  let ch := if is_empty ch_txt then [SPACE] else ch_txt in
  match ch with
  | c0 :: _ :: _ => [first_non_space ch c0]
  | _ => ch
  end.

Definition no_table_msg : string :=
  "No <table> found in the document HTML. Is this a *published* Google Doc URL?".
Definition no_data_rows_msg : string := "Table has no data rows.".
Definition no_valid_rows_msg : string :=
  "No valid (x, char, y) rows parsed from the table.".

Section Parser.

Variable unicode_decimal : char -> option N.
Variable int_max_str_digits : nat.

(** [BeautifulSoup(html, "html.parser")]. *)
Variable BeautifulSoup : pystr -> node.

Abbreviation int := (py_int unicode_decimal int_max_str_digits).

(** One turn of the loop of lines 38 to 65: the Cell that the row
    appends, [None] where the turn ends in [continue]. The pattern
    [td0 :: td1 :: td2 :: _] is [len(tds) >= 3] with [tds[0]], [tds[1]]
    and [tds[2]]. *)
Definition row_cell (tr : node) : option Cell :=
  match find_all ["td"; "th"] tr with
  | td0 :: td1 :: td2 :: _ =>
      let x_txt := _clean_text (get_text td0) in
      let ch_txt := _clean_text (get_text td1) in
      let y_txt := _clean_text (get_text td2) in
      if is_empty x_txt || is_empty y_txt then None
      else match int x_txt with
           | None => None
           | Some x =>
               match int y_txt with
               | None => None
               | Some y => Some (mkCell x y (choose_ch ch_txt))
               end
           end
  | _ => None
  end.

Definition loop_body (cells : list Cell) (tr : node) : list Cell :=
  match row_cell tr with
  | Some c => cells ++ [c]
  | None => cells
  end.

Definition _parse_cells_from_published_doc_html (html : pystr) : result (list Cell) :=
  let soup := BeautifulSoup html in
  match find "table" soup with
  | None => Err (ValueError no_table_msg)
  | Some table =>
      let rows := find_all ["tr"] table in
      if is_empty rows || (length rows <? 2)%nat
      then Err (ValueError no_data_rows_msg)
      else
        let cells := fold_left loop_body (drop 1 rows) [] in
        if is_empty cells then Err (ValueError no_valid_rows_msg)
        else Ok cells
  end.

End Parser.

(** ** The grid *)

Definition max_empty_msg : string := "max() arg is an empty sequence".

(** [max] of a sequence of integers; on an empty one it raises a
    [ValueError] (the wording of its message varies with the interpreter). *)
Definition py_max (l : list Z) : result Z :=
  match l with
  | [] => Err (ValueError max_empty_msg)
  | a :: l' => Ok (fold_left Z.max l' a)
  end.

(** [len(range(n))]. *)
Definition range_len (n : Z) : nat := Z.to_nat n.

Abbreviation grid := (list (list pystr)).

(** Line 88. The comprehension builds every row anew, so no two rows
    are one object. *)
Definition blank_grid (max_x max_y : Z) : grid :=
  replicate (range_len (max_y + 1)) (replicate (range_len (max_x + 1)) [SPACE]).

(** The position that index [i] denotes in a list of length [len]: a
    negative index counts from the end. *)
Definition list_index (len : nat) (i : Z) : result nat :=
  if (0 <=? i) && (i <? Z.of_nat len) then Ok (Z.to_nat i)
  else if (- Z.of_nat len <=? i) && (i <? 0) then Ok (Z.to_nat (Z.of_nat len + i))
  else Err IndexError.

(** [g[r][c] = v]. *)
Definition setitem2 (g : grid) (r c : Z) (v : pystr) : result grid :=
  try! i := list_index (length g) r in
  match g !! i with
  | None => Err IndexError
  | Some row =>
      try! j := list_index (length row) c in
      Ok (<[i := <[j := v]> row]> g)
  end.

Definition in_bounds (max_x max_y : Z) (c : Cell) : bool :=
  (0 <=? x c) && (x c <=? max_x) && (0 <=? y c) && (y c <=? max_y).

(** One turn of the loop of lines 90 to 92. *)
Definition place (max_x max_y : Z) (g : grid) (c : Cell) : result grid :=
  if in_bounds max_x max_y c then setitem2 g (max_y - y c) (x c) (ch c)
  else Ok g.

Fixpoint populate (max_x max_y : Z) (g : grid) (cells : list Cell) : result grid :=
  match cells with
  | [] => Ok g
  | c :: cells' =>
      try! g' := place max_x max_y g c in
      populate max_x max_y g' cells'
  end.

(** Lines 85 to 92. *)
Definition build_grid (cells : list Cell) : result grid :=
  try! max_x := py_max (map x cells) in
  try! max_y := py_max (map y cells) in
  populate max_x max_y (blank_grid max_x max_y) cells.

(** Lines 94 and 95: the lines written to standard output. *)
Definition print_rows (g : grid) : list pystr := map (fun row => concat row) g.

(** ** The pipeline *)

Record Response := mkResponse { status_code : Z; text : pystr }.

(** What [requests.get] comes back with: an exception of the transport,
    or a response. *)
Inductive fetched :=
| Failed (detail : string)
| Responded (resp : Response).

(** [resp.raise_for_status()]: it raises [HTTPError] for a status from 400
    to 599, a client or a server error, and returns for every other. *)
Definition raise_for_status (resp : Response) : result unit :=
  if (400 <=? status_code resp) && (status_code resp <? 600)
  then Err (HTTPError (status_code resp))
  else Ok tt.

Section Pipeline.

Variable unicode_decimal : char -> option N.
Variable int_max_str_digits : nat.
Variable BeautifulSoup : pystr -> node.

(** [requests.get(url, timeout=...)]. *)
Variable requests_get : pystr -> Z -> fetched.

Abbreviation parse :=
  (_parse_cells_from_published_doc_html unicode_decimal int_max_str_digits BeautifulSoup).

(** The lines the program prints, or the exception it ends with. *)
Definition print_secret_message_grid (published_google_doc_url : pystr)
  : result (list pystr) :=
  match requests_get published_google_doc_url 30 with
  | Failed detail => Err (RequestException detail)
  | Responded resp =>
      try! _ := raise_for_status resp in
      try! cells := parse (text resp) in
      try! g := build_grid cells in
      Ok (print_rows g)
  end.

End Pipeline.

(** ** Definitions for the statements *)

(** What the grid holds at row [r], column [c]. *)
Definition get2 (g : grid) (r c : nat) : option pystr :=
  match g !! r with
  | Some row => row !! c
  | None => None
  end.

(** A grid of [rows] rows of [cols] columns each. *)
Definition shaped (rows cols : nat) (g : grid) : Prop :=
  length g = rows /\ Forall (fun row => length row = cols) g.

(** The Cell has the coordinates [(cx, cy)]. *)
Definition at_xy (cx cy : Z) (c : Cell) : bool := (x c =? cx) && (y c =? cy).

(** The last Cell of the sequence with the coordinates [(cx, cy)]. *)
Definition last_at (cells : list Cell) (cx cy : Z) : option Cell :=
  last (List.filter (at_xy cx cy) cells).

(** What lines 88 to 92 leave at row [r], column [c]. *)
Definition expected (cells : list Cell) (my : Z) (r c : nat) : pystr :=
  match last_at cells (Z.of_nat c) (my - Z.of_nat r) with
  | Some cell => ch cell
  | None => [SPACE]
  end.

(** The character at column [c] of printed line [r]. *)
Definition rendered_at (lines : list pystr) (r c : nat) : option char :=
  match lines !! r with
  | Some line => line !! c
  | None => None
  end.

(** A [str] of length 1. *)
Definition one_char (s : pystr) : Prop := length s = 1%nat.

(** The cells of a row, the text of cell [i] as it stands and cleaned. *)
Definition row_tds (tr : node) : list node := find_all ["td"; "th"] tr.

Definition raw_text (tr : node) (i : nat) : pystr :=
  match row_tds tr !! i with
  | Some td => get_text td
  | None => []
  end.

Definition cell_text (tr : node) (i : nat) : pystr := _clean_text (raw_text tr i).

Section ParserSpec.

Variable unicode_decimal : char -> option N.
Variable int_max_str_digits : nat.
Variable BeautifulSoup : pystr -> node.

Abbreviation int := (py_int unicode_decimal int_max_str_digits).
Abbreviation row_cell' := (row_cell unicode_decimal int_max_str_digits).

(** The rows that the loop skips. *)
Definition rejected (tr : node) : Prop :=
  (length (row_tds tr) < 3)%nat
  \/ cell_text tr 0 = [] \/ cell_text tr 2 = []
  \/ int (cell_text tr 0) = None \/ int (cell_text tr 2) = None.

(** The three ways the parser fails. *)
Definition no_table (html : pystr) : Prop :=
  find "table" (BeautifulSoup html) = None.

Definition too_few_rows (html : pystr) : Prop :=
  exists table, find "table" (BeautifulSoup html) = Some table
    /\ (length (find_all ["tr"] table) < 2)%nat.

Definition all_rows_skipped (html : pystr) : Prop :=
  exists table, find "table" (BeautifulSoup html) = Some table
    /\ (2 <= length (find_all ["tr"] table))%nat
    /\ Forall (fun tr => row_cell' tr = None) (drop 1 (find_all ["tr"] table)).

End ParserSpec.

(** A text of ASCII digits only. *)
Definition all_digits (ds : pystr) : Prop := Forall (fun c => is_digit c = true) ds.

(** ** Documents, Cells and responses for the examples *)

Definition td (s : string) : node := Tag "td" [NavigableString (lit s)].
Definition tr (cells : list string) : node := Tag "tr" (map td cells).
Definition document (rows : list node) : node :=
  Tag "[document]" [Tag "html" [Tag "body" [Tag "table" rows]]].
Definition header : node := tr ["x-coordinate"; "Character"; "y-coordinate"].

(** An interpreter whose only decimal digits are the ASCII ones. *)
Definition ascii_decimal : char -> option N := fun _ => None.

Definition sample_document : node :=
  document [header; tr ["0"; "a"; "0"]; tr ["1"; "b"; "0"]; tr ["0"; "c"; "1"]].

Definition three_cells : list Cell :=
  [mkCell 0 0 (lit "a"); mkCell 1 0 (lit "b"); mkCell 0 1 (lit "c")].

Definition negative_document : node := document [header; tr ["-2"; "a"; "-2"]].

Definition noisy_document : node :=
  document [header; tr ["1"; "b"; "0"]; tr ["7"; "q"]; tr [""; "r"; "3"];
            tr ["2"; "s"; "two"]; tr ["0"; "a"; "0"]; tr ["1"; "b"; "0"]].

Definition noisy_table : node :=
  Tag "table" [header; tr ["1"; "b"; "0"]; tr ["7"; "q"]; tr [""; "r"; "3"];
               tr ["2"; "s"; "two"]; tr ["0"; "a"; "0"]; tr ["1"; "b"; "0"]].

(** A row as a published document has it: a header cell among the data
    cells, markup inside the cells, a comment, no-break spaces and line
    ends around the texts, and a block character. *)
Definition published_row : node :=
  Tag "tr"
    [Tag "td" [Tag "p" [Tag "span" [NavigableString (lit " 12")]; NavigableString [10%N]]];
     Tag "th" [Tag "p" [Tag "span" [NavigableString [NBSP; 9608%N; NBSP]]]];
     Tag "td" [Comment (lit "y"); Tag "p" [NavigableString (lit "-"); NavigableString (lit "3 ")]]].

Definition ok_response : Response := mkResponse 200 [].
Definition not_modified_response : Response := mkResponse 304 [].

(** The text of a page that holds the table of [sample_document]. *)
Definition sample_html : pystr :=
  lit "<html><body><table><tr><td>x-coordinate</td><td>Character</td><td>y-coordinate</td></tr><tr><td>0</td><td>a</td><td>0</td></tr><tr><td>1</td><td>b</td><td>0</td></tr><tr><td>0</td><td>c</td><td>1</td></tr></table></body></html>".

Fixpoint str_eqb (a b : pystr) : bool :=
  match a, b with
  | [], [] => true
  | c :: a', d :: b' => (c =? d)%N && str_eqb a' b'
  | _, _ => false
  end.

(** An HTML parser on the texts of the examples: the tree of
    [sample_html], no node for the empty text, and one string for a text
    taken to hold no markup. *)
Definition sample_parser (html : pystr) : node :=
  if str_eqb html sample_html then sample_document
  else Tag "[document]" (if is_empty html then [] else [NavigableString html]).

(** A response of status 300 whose body is the page. *)
Definition multiple_choices_response : Response := mkResponse 300 sample_html.

(** ** Definitions for the further properties *)

(** No space follows a space. *)
Fixpoint single_spaced (t : pystr) : Prop :=
  match t with
  | c1 :: t' =>
      match t' with
      | c2 :: _ => ~ (c1 = SPACE /\ c2 = SPACE)
      | [] => True
      end /\ single_spaced t'
  | [] => True
  end.

(** A text as [_clean_text] leaves it: no whitespace at either end, no
    whitespace but the space, and no two spaces in a row. *)
Definition normalised (t : pystr) : Prop :=
  (forall k, head t = Some k -> isspace k = false)
  /\ (forall k, last t = Some k -> isspace k = false)
  /\ Forall (fun c => isspace c = true -> c = SPACE) t
  /\ single_spaced t.

(** The characters of a text that are no whitespace, in their order. *)
Definition visible (s : pystr) : pystr := List.filter (fun c => negb (isspace c)) s.

Definition coords (c : Cell) : Z * Z := (x c, y c).

(** Line 98: the URL of the published document, as the source writes it. *)
Definition published_url : pystr :=
  lit " https://docs.google.com/document/d/e/2PACX-1vSvM5gDlNvt7npYHhp_XfsJvuntUhq184By5xO_pA4b_gCWeXb6dM6ZxwN8rE6S4ghUsCj2VKR21oEP/pub".

Section Program.

Variable unicode_decimal : char -> option N.
Variable int_max_str_digits : nat.
Variable BeautifulSoup : pystr -> node.
Variable requests_get : pystr -> Z -> fetched.

(** Line 98: the call that the module makes when it is run. *)
Definition main : result (list pystr) :=
  print_secret_message_grid unicode_decimal int_max_str_digits BeautifulSoup
    requests_get published_url.

End Program.

Section CoordinateText.

Variable unicode_decimal : char -> option N.

(** A character that [int] reads as part of a number: an ASCII digit, an
    underscore, or a decimal digit of another script. *)
Definition coord_char (c : char) : Prop :=
  is_digit_or_us c = true \/ ((127 <= c)%N /\ is_Some (unicode_decimal c)).

(** The texts that [int] can accept once cleaned: an optional sign, then
    characters of a number. *)
Definition coord_text (t : pystr) : Prop :=
  exists sign body, t = sign ++ body
    /\ (sign = [] \/ sign = [PLUS] \/ sign = [MINUS])
    /\ body <> [] /\ Forall coord_char body.

End CoordinateText.

(** ** Examples *)

Example clean_text_A_space : _clean_text (lit "A ") = lit "A".
Proof. reflexivity. Qed.

Example clean_text_spaces : _clean_text (lit "  ") = [].
Proof. reflexivity. Qed.

Example clean_text_runs :
  _clean_text ([NBSP; 9%N] ++ lit "a" ++ [10%N; 160%N; 32%N] ++ lit "b ") = lit "a b".
Proof. reflexivity. Qed.

Example published_row_cell :
  row_cell ascii_decimal 4300 published_row = Some (mkCell 12 (-3) [9608%N]).
Proof. reflexivity. Qed.

Example underscore_row_cell :
  row_cell ascii_decimal 4300 (tr ["1_0"; "u"; "+2"]) = Some (mkCell 10 2 (lit "u")).
Proof. reflexivity. Qed.

Example digit_limit :
  py_int ascii_decimal 3 (lit "1234") = None /\ py_int ascii_decimal 3 (lit "-1_23") = Some (-123)
  /\ py_int ascii_decimal 0 (lit "1234") = Some 1234.
Proof. repeat split; reflexivity. Qed.

Example other_decimal_digits :
  py_int (fun c => if (c =? 1635)%N then Some 3%N else None) 4300 [1635%N; 49%N] = Some 31
  /\ py_int ascii_decimal 4300 [1635%N; 49%N] = None.
Proof. split; reflexivity. Qed.

Example py_int_examples :
  let int := py_int (fun _ => None) 4300 in
  int (lit "12") = Some 12 /\ int (lit "-7") = Some (-7) /\ int (lit "+007") = Some 7
  /\ int (lit "1_000") = Some 1000 /\ int (lit "1__0") = None /\ int (lit "_1") = None
  /\ int (lit "1_") = None /\ int (lit "") = None /\ int (lit "-") = None
  /\ int (lit "1 2") = None /\ int (lit "x") = None /\ int (lit "1.5") = None
  /\ int (lit "- 1") = None /\ int (lit "--1") = None.
Proof. repeat split; reflexivity. Qed.

Example sample_parse :
  _parse_cells_from_published_doc_html ascii_decimal 4300 (fun _ => sample_document) []
  = Ok [mkCell 0 0 (lit "a"); mkCell 1 0 (lit "b"); mkCell 0 1 (lit "c")].
Proof. reflexivity. Qed.

Example sample_run :
  print_secret_message_grid ascii_decimal 4300 (fun _ => sample_document)
    (fun _ _ => Responded (mkResponse 200 [])) []
  = Ok [lit "c "; lit "ab"].
Proof. reflexivity. Qed.

Example no_table_fails :
  _parse_cells_from_published_doc_html ascii_decimal 4300
    (fun _ => Tag "[document]" [Tag "p" [NavigableString (lit "hello")]]) []
  = Err (ValueError no_table_msg).
Proof. reflexivity. Qed.

Example header_only_fails :
  _parse_cells_from_published_doc_html ascii_decimal 4300 (fun _ => document [header]) []
  = Err (ValueError no_data_rows_msg).
Proof. reflexivity. Qed.

(** ** The grid: lemmas *)

Lemma fold_max_ge (l : list Z) (a : Z) :
  a <= fold_left Z.max l a /\ Forall (fun b => b <= fold_left Z.max l a) l.
Proof.
  revert a. induction l as [|b l IH]; intros a; simpl.
  - split; [lia | constructor].
  - destruct (IH (Z.max a b)) as [H1 H2]. split; [lia |].
    constructor; [lia | exact H2].
Qed.

Lemma py_max_ge (l : list Z) (m : Z) :
  py_max l = Ok m -> Forall (fun b => b <= m) l.
Proof.
  destruct l as [|a l]; simpl; [discriminate |].
  intros [= <-]. destruct (fold_max_ge l a). by constructor.
Qed.

Lemma py_max_ok (l : list Z) : l <> [] -> exists m, py_max l = Ok m.
Proof. destruct l; [done | eauto]. Qed.

Lemma py_max_nonempty (l : list Z) (m : Z) : py_max l = Ok m -> l <> [].
Proof. by destruct l. Qed.

Lemma blank_grid_shaped (mx my : Z) :
  shaped (range_len (my + 1)) (range_len (mx + 1)) (blank_grid mx my).
Proof.
  unfold shaped, blank_grid. split.
  - by rewrite length_replicate.
  - apply Forall_replicate. by rewrite length_replicate.
Qed.

Lemma blank_grid_get2 (mx my : Z) (r c : nat) :
  (r < range_len (my + 1))%nat -> (c < range_len (mx + 1))%nat ->
  get2 (blank_grid mx my) r c = Some [SPACE].
Proof.
  intros Hr Hc. unfold get2, blank_grid.
  rewrite lookup_replicate_2 by done. by rewrite lookup_replicate_2.
Qed.

Lemma list_index_in_range (len : nat) (i : Z) :
  0 <= i < Z.of_nat len -> list_index len i = Ok (Z.to_nat i).
Proof.
  intros H. unfold list_index.
  destruct (Z.leb_spec 0 i); [| lia]. destruct (Z.ltb_spec i (Z.of_nat len)); [done | lia].
Qed.

Lemma shaped_row (rows cols : nat) (g : grid) (i : nat) (row : list pystr) :
  shaped rows cols g -> g !! i = Some row -> length row = cols.
Proof.
  intros [_ H] Hi. rewrite Forall_forall in H. apply H.
  eapply list_elem_of_lookup_2. exact Hi.
Qed.

(** A write inside a grid of the given shape: it succeeds, keeps the shape
    and changes the one position. *)
Lemma setitem2_in_range (rows cols : nat) (g : grid) (r c : Z) (v : pystr) :
  shaped rows cols g -> 0 <= r < Z.of_nat rows -> 0 <= c < Z.of_nat cols ->
  exists g', setitem2 g r c v = Ok g' /\ shaped rows cols g'
    /\ forall i j, get2 g' i j =
         if decide (i = Z.to_nat r /\ j = Z.to_nat c) then Some v else get2 g i j.
Proof.
  intros Hs Hr Hc. pose proof Hs as [Hlen Hall]. unfold setitem2.
  rewrite list_index_in_range by lia. simpl.
  destruct (lookup_lt_is_Some_2 g (Z.to_nat r)) as [row Hrow]; [lia |].
  rewrite Hrow. pose proof (shaped_row _ _ _ _ _ Hs Hrow) as Hcols.
  rewrite list_index_in_range by lia. simpl.
  eexists. split; [reflexivity |]. split.
  - split; [by rewrite length_insert |].
    apply Forall_insert; [done |]. by rewrite length_insert.
  - intros i j. unfold get2. case_decide as Hij.
    + destruct Hij as [-> ->]. rewrite list_lookup_insert_eq by lia.
      apply list_lookup_insert_eq. lia.
    + destruct (decide (i = Z.to_nat r)) as [-> | Hi].
      * rewrite list_lookup_insert_eq by lia. rewrite Hrow.
        apply list_lookup_insert_ne. intros <-. by apply Hij.
      * by rewrite list_lookup_insert_ne.
Qed.

Lemma last_at_cons (c0 : Cell) (cells : list Cell) (cx cy : Z) :
  last_at (c0 :: cells) cx cy =
  match last_at cells cx cy with
  | Some c => Some c
  | None => if at_xy cx cy c0 then Some c0 else None
  end.
Proof.
  unfold last_at. simpl. destruct (at_xy cx cy c0).
  - rewrite last_cons. by destruct (last _).
  - by destruct (last _).
Qed.

Lemma last_at_app (l1 l2 : list Cell) (cx cy : Z) :
  last_at (l1 ++ l2) cx cy =
  match last_at l2 cx cy with
  | Some c => Some c
  | None => last_at l1 cx cy
  end.
Proof. unfold last_at. rewrite List.filter_app. apply last_app. Qed.

Lemma last_at_none (cells : list Cell) (cx cy : Z) :
  last_at cells cx cy = None <-> Forall (fun c => at_xy cx cy c = false) cells.
Proof.
  unfold last_at. rewrite last_None. induction cells as [|c cells IH]; simpl.
  - split; [constructor | done].
  - destruct (at_xy cx cy c) eqn:E.
    + split; [done |]. intros H. inversion H; congruence.
    + rewrite IH. split; [by constructor |]. intros H. by inversion H.
Qed.

Lemma last_at_some (cells : list Cell) (cx cy : Z) (c : Cell) :
  last_at cells cx cy = Some c -> c ∈ cells /\ x c = cx /\ y c = cy.
Proof.
  unfold last_at. intros H. apply last_Some_elem_of in H.
  apply list_elem_of_In, List.filter_In in H as [H1 H2].
  unfold at_xy in H2. apply andb_true_iff in H2 as [?%Z.eqb_eq ?%Z.eqb_eq].
  split; [by apply list_elem_of_In | done].
Qed.

Lemma in_bounds_spec (mx my : Z) (c : Cell) :
  in_bounds mx my c = true <-> 0 <= x c <= mx /\ 0 <= y c <= my.
Proof. unfold in_bounds. rewrite !andb_true_iff, !Z.leb_le. lia. Qed.

(** The loop of lines 90 to 92 on a grid of [max_y + 1] rows and
    [max_x + 1] columns: it raises nothing, keeps the shape, and leaves at
    each position the character of the last Cell that has its coordinates,
    or what was there when no Cell has. *)
Lemma populate_spec (mx my : Z) (cells : list Cell) (g : grid) :
  shaped (range_len (my + 1)) (range_len (mx + 1)) g ->
  exists g', populate mx my g cells = Ok g'
    /\ shaped (range_len (my + 1)) (range_len (mx + 1)) g'
    /\ forall r c, (r < range_len (my + 1))%nat -> (c < range_len (mx + 1))%nat ->
         get2 g' r c =
         match last_at cells (Z.of_nat c) (my - Z.of_nat r) with
         | Some cell => Some (ch cell)
         | None => get2 g r c
         end.
Proof.
  unfold range_len. revert g. induction cells as [|c0 cells IH]; intros g Hs.
  - exists g. split; [done |]. split; [done |]. by intros r c _ _.
  - simpl. unfold place. destruct (in_bounds mx my c0) eqn:Hb.
    + apply in_bounds_spec in Hb.
      destruct (setitem2_in_range _ _ g (my - y c0) (x c0) (ch c0) Hs)
        as (g1 & -> & Hs1 & Hg1); [lia | lia |].
      simpl. destruct (IH g1 Hs1) as (g' & -> & Hs' & Hg').
      exists g'. split; [done |]. split; [done |].
      intros r c Hr Hc. rewrite (Hg' r c Hr Hc), last_at_cons.
      destruct (last_at cells _ _); [done |].
      rewrite Hg1. unfold at_xy. case_decide as Hd.
      * destruct Hd as [-> ->].
        destruct (Z.eqb_spec (x c0) (Z.of_nat (Z.to_nat (x c0)))); [| lia].
        destruct (Z.eqb_spec (y c0) (my - Z.of_nat (Z.to_nat (my - y c0)))); [done | lia].
      * destruct (Z.eqb_spec (x c0) (Z.of_nat c)); [| done].
        destruct (Z.eqb_spec (y c0) (my - Z.of_nat r)); [| done].
        exfalso. apply Hd. lia.
    + simpl. destruct (IH g Hs) as (g' & -> & Hs' & Hg').
      exists g'. split; [done |]. split; [done |].
      intros r c Hr Hc. rewrite (Hg' r c Hr Hc), last_at_cons.
      destruct (last_at cells _ _); [done |].
      unfold at_xy.
      destruct (Z.eqb_spec (x c0) (Z.of_nat c)); [| done].
      destruct (Z.eqb_spec (y c0) (my - Z.of_nat r)); [| done].
      exfalso. assert (in_bounds mx my c0 = true); [| congruence].
      apply in_bounds_spec. lia.
Qed.

Lemma build_grid_spec (cells : list Cell) (mx my : Z) :
  py_max (map x cells) = Ok mx -> py_max (map y cells) = Ok my ->
  exists g, build_grid cells = Ok g
    /\ shaped (range_len (my + 1)) (range_len (mx + 1)) g
    /\ forall r c, (r < range_len (my + 1))%nat -> (c < range_len (mx + 1))%nat ->
         get2 g r c = Some (expected cells my r c).
Proof.
  intros Hx Hy. unfold build_grid. rewrite Hx, Hy. simpl.
  destruct (populate_spec mx my cells _ (blank_grid_shaped mx my)) as (g & -> & Hs & Hg).
  exists g. split; [done |]. split; [done |].
  intros r c Hr Hc. rewrite (Hg r c Hr Hc). unfold expected.
  destruct (last_at cells _ _); [done |]. by apply blank_grid_get2.
Qed.

(** ** Rendering: lemmas *)

Lemma concat_one_char (row : list pystr) :
  Forall one_char row -> concat row = omap head row.
Proof.
  induction 1 as [|e row He _ IH]; [done |].
  destruct e as [|k [|? ?]]; try discriminate He. simpl. by rewrite IH.
Qed.

Lemma omap_head_one_char (row : list pystr) :
  Forall one_char row ->
  length (omap head row) = length row /\ forall c, omap head row !! c = row !! c ≫= head.
Proof.
  induction 1 as [|e row He _ [IH1 IH2]]; [by split; [| intros []] |].
  destruct e as [|k [|? ?]]; try discriminate He.
  change (omap head ([k] :: row)) with (k :: omap head row).
  split; [simpl; by rewrite IH1 |].
  intros [|c]; [done |]. apply IH2.
Qed.

Lemma print_rows_one_char (g : grid) (r c : nat) :
  Forall (Forall one_char) g ->
  rendered_at (print_rows g) r c = get2 g r c ≫= head.
Proof.
  intros Hg. unfold rendered_at, print_rows, get2. rewrite list_lookup_fmap.
  destruct (g !! r) as [row|] eqn:Hr; [| done]. simpl.
  assert (Forall one_char row) as Hrow.
  { rewrite Forall_forall in Hg. apply Hg. by eapply list_elem_of_lookup_2. }
  rewrite concat_one_char by done. by apply omap_head_one_char.
Qed.

Lemma print_rows_lengths (g : grid) (rows cols : nat) :
  shaped rows cols g -> Forall (Forall one_char) g ->
  length (print_rows g) = rows /\ Forall (fun line => length line = cols) (print_rows g).
Proof.
  intros [Hlen Hall] Hg. unfold print_rows. split; [by rewrite length_map |].
  apply Forall_fmap. rewrite Forall_forall in Hall, Hg. apply Forall_forall.
  intros row Hrow. simpl. rewrite concat_one_char by by apply Hg.
  destruct (omap_head_one_char row) as [-> _]; [by apply Hg | by apply Hall].
Qed.

Lemma expected_one_char (cells : list Cell) (my : Z) (r c : nat) :
  Forall (fun cell => one_char (ch cell)) cells -> one_char (expected cells my r c).
Proof.
  intros H. unfold expected. destruct (last_at cells _ _) as [cell|] eqn:E; [| done].
  apply last_at_some in E as [E _]. rewrite Forall_forall in H. by apply H.
Qed.

(** A grid built from Cells of one character holds one character at every
    position. *)
Lemma build_grid_one_char (cells : list Cell) (g : grid) :
  Forall (fun cell => one_char (ch cell)) cells ->
  build_grid cells = Ok g -> Forall (Forall one_char) g.
Proof.
  intros H1 Hg. unfold build_grid in Hg.
  destruct (py_max (map x cells)) as [mx|] eqn:Hx; [| discriminate].
  destruct (py_max (map y cells)) as [my|] eqn:Hy; [| discriminate].
  destruct (build_grid_spec cells mx my Hx Hy) as (g' & Hg' & Hs & Hget).
  unfold build_grid in Hg'. rewrite Hx, Hy in Hg'. simpl in Hg, Hg'.
  assert (g' = g) as -> by congruence.
  apply Forall_lookup. intros r row Hr. apply Forall_lookup. intros c e Hc.
  pose proof (lookup_lt_Some _ _ _ Hr) as Hr'.
  pose proof (lookup_lt_Some _ _ _ Hc) as Hc'.
  rewrite (shaped_row _ _ _ _ _ Hs Hr) in Hc'. destruct Hs as [Hs _]. rewrite Hs in Hr'.
  specialize (Hget r c Hr' Hc'). unfold get2 in Hget. rewrite Hr, Hc in Hget.
  injection Hget as ->. by apply expected_one_char.
Qed.

(** ** The grid: theorems *)

(** C1, as stated, fails: of two Cells with the same coordinates the
    earlier one is within bounds, and neither the grid nor the printed line
    holds its character at [(max_y - y, x)]. *)
Lemma overwritten_cell_not_rendered :
  ~ (forall (cells : list Cell) (mx my : Z) (g : grid) (c : Cell) (k : char),
        py_max (map x cells) = Ok mx -> py_max (map y cells) = Ok my ->
        build_grid cells = Ok g ->
        c ∈ cells -> ch c = [k] -> 0 <= x c <= mx -> 0 <= y c <= my ->
        get2 g (Z.to_nat (my - y c)) (Z.to_nat (x c)) = Some (ch c)
        /\ rendered_at (print_rows g) (Z.to_nat (my - y c)) (Z.to_nat (x c)) = Some k).
Proof.
  intros H.
  destruct (H [mkCell 0 0 (lit "a"); mkCell 0 0 (lit "b")] 0 0 [[lit "b"]]
              (mkCell 0 0 (lit "a")) 97%N) as [H1 _];
    try reflexivity; try (simpl; lia).
  - apply list_elem_of_here.
  - discriminate H1.
Qed.

(** C1 (amended). For a non-empty sequence of Cells of one character each,
    with [mx] and [my] the maxima of their [x] and [y]: the grid is built
    without error; for every Cell within bounds, the grid position at row
    [my - y], column [x], and the printed character there, are the
    character of the last Cell of the sequence with these coordinates; and
    a position whose coordinates no Cell has holds the blank. *)
Theorem grid_holds_last_written (cells : list Cell) (mx my : Z) :
  py_max (map x cells) = Ok mx -> py_max (map y cells) = Ok my ->
  Forall (fun c => one_char (ch c)) cells ->
  exists g, build_grid cells = Ok g
    /\ (forall c, c ∈ cells -> 0 <= x c <= mx -> 0 <= y c <= my ->
          exists c', last_at cells (x c) (y c) = Some c'
            /\ get2 g (Z.to_nat (my - y c)) (Z.to_nat (x c)) = Some (ch c')
            /\ rendered_at (print_rows g) (Z.to_nat (my - y c)) (Z.to_nat (x c))
               = head (ch c'))
    /\ (forall r col, (r < range_len (my + 1))%nat -> (col < range_len (mx + 1))%nat ->
          (forall c, c ∈ cells -> x c = Z.of_nat col -> y c = my - Z.of_nat r -> False) ->
          get2 g r col = Some [SPACE]
          /\ rendered_at (print_rows g) r col = Some SPACE).
Proof.
  intros Hx Hy H1.
  destruct (build_grid_spec cells mx my Hx Hy) as (g & Hg & Hs & Hget).
  pose proof (build_grid_one_char cells g H1 Hg) as Hone.
  exists g. split; [done |]. unfold range_len in *. split.
  - intros c Hc Hxc Hyc.
    destruct (last_at cells (x c) (y c)) as [c'|] eqn:E.
    + exists c'. split; [done |].
      assert (get2 g (Z.to_nat (my - y c)) (Z.to_nat (x c)) = Some (ch c')) as Hget'.
      { rewrite Hget by lia. unfold expected.
        replace (Z.of_nat (Z.to_nat (x c))) with (x c) by lia.
        replace (my - Z.of_nat (Z.to_nat (my - y c))) with (y c) by lia.
        by rewrite E. }
      split; [done |]. rewrite print_rows_one_char by done. by rewrite Hget'.
    + exfalso. apply last_at_none in E. rewrite Forall_forall in E.
      specialize (E c Hc). unfold at_xy in E. rewrite !Z.eqb_refl in E. discriminate.
  - intros r col Hr Hcol Hnone.
    assert (get2 g r col = Some [SPACE]) as Hget'.
    { rewrite Hget by lia. unfold expected.
      destruct (last_at cells _ _) as [c'|] eqn:E; [| done].
      apply last_at_some in E as (Hin & Hx' & Hy'). destruct (Hnone c' Hin Hx' Hy'). }
    split; [done |]. rewrite print_rows_one_char by done. by rewrite Hget'.
Qed.

Lemma grid_holds_last_written_witness :
  py_max (map x three_cells) = Ok 1 /\ py_max (map y three_cells) = Ok 1
  /\ Forall (fun c => one_char (ch c)) three_cells
  /\ exists g, build_grid three_cells = Ok g
    /\ (forall c, c ∈ three_cells -> 0 <= x c <= 1 -> 0 <= y c <= 1 ->
          exists c', last_at three_cells (x c) (y c) = Some c'
            /\ get2 g (Z.to_nat (1 - y c)) (Z.to_nat (x c)) = Some (ch c')
            /\ rendered_at (print_rows g) (Z.to_nat (1 - y c)) (Z.to_nat (x c))
               = head (ch c'))
    /\ (forall r col, (r < range_len (1 + 1))%nat -> (col < range_len (1 + 1))%nat ->
          (forall c, c ∈ three_cells -> x c = Z.of_nat col -> y c = 1 - Z.of_nat r -> False) ->
          get2 g r col = Some [SPACE]
          /\ rendered_at (print_rows g) r col = Some SPACE).
Proof.
  split; [reflexivity |]. split; [reflexivity |].
  split; [repeat constructor |].
  apply (grid_holds_last_written three_cells 1 1); [reflexivity | reflexivity |].
  repeat constructor.
Defined.

(** C3, as stated, fails: of three Cells with the same coordinates and
    different characters, the second is later than the first, and the grid
    holds the character of the third. *)
Lemma later_of_two_not_always_held :
  ~ (forall (pre mid post : list Cell) (c1 c2 : Cell) (mx my : Z) (g : grid),
        x c1 = x c2 -> y c1 = y c2 -> ch c1 <> ch c2 ->
        py_max (map x (pre ++ c1 :: mid ++ c2 :: post)) = Ok mx ->
        py_max (map y (pre ++ c1 :: mid ++ c2 :: post)) = Ok my ->
        build_grid (pre ++ c1 :: mid ++ c2 :: post) = Ok g ->
        get2 g (Z.to_nat (my - y c2)) (Z.to_nat (x c2)) = Some (ch c2)).
Proof.
  intros H.
  assert (get2 [[lit "c"]] 0 0 = Some (lit "b")) as Hb.
  { apply (H [] [] [mkCell 0 0 (lit "c")] (mkCell 0 0 (lit "a")) (mkCell 0 0 (lit "b")) 0 0);
      (reflexivity || discriminate). }
  discriminate Hb.
Qed.

(** The statement fails as well where no Cell follows the later one at its
    coordinates but a coordinate is negative: the two Cells are not
    written, and there is no position [(my - y, x)] for them. *)
Lemma later_of_two_outside_grid :
  ~ (forall (pre mid post : list Cell) (c1 c2 : Cell) (mx my : Z) (g : grid),
        x c1 = x c2 -> y c1 = y c2 -> ch c1 <> ch c2 ->
        Forall (fun c => at_xy (x c2) (y c2) c = false) post ->
        py_max (map x (pre ++ c1 :: mid ++ c2 :: post)) = Ok mx ->
        py_max (map y (pre ++ c1 :: mid ++ c2 :: post)) = Ok my ->
        build_grid (pre ++ c1 :: mid ++ c2 :: post) = Ok g ->
        get2 g (Z.to_nat (my - y c2)) (Z.to_nat (x c2)) = Some (ch c2)).
Proof.
  intros H.
  assert (get2 [[lit "z"]] 0 0 = Some (lit "b")) as Hb.
  { apply (H [] [] [mkCell 0 0 (lit "z")] (mkCell (-1) 0 (lit "a")) (mkCell (-1) 0 (lit "b")) 0 0);
      first [reflexivity | discriminate | repeat constructor]. }
  discriminate Hb.
Qed.

(** C3 (amended). Of two Cells with the same coordinates, neither
    negative, the grid position at row [my - y], column [x] holds the
    character of the later one, where no Cell after it has these
    coordinates, and no error is raised; the character of the earlier one
    is gone when it differs. *)
Theorem later_cell_overwrites (pre mid post : list Cell) (c1 c2 : Cell) :
  x c1 = x c2 -> y c1 = y c2 -> 0 <= x c2 -> 0 <= y c2 ->
  Forall (fun c => at_xy (x c2) (y c2) c = false) post ->
  exists mx my g,
    py_max (map x (pre ++ c1 :: mid ++ c2 :: post)) = Ok mx
    /\ py_max (map y (pre ++ c1 :: mid ++ c2 :: post)) = Ok my
    /\ build_grid (pre ++ c1 :: mid ++ c2 :: post) = Ok g
    /\ get2 g (Z.to_nat (my - y c2)) (Z.to_nat (x c2)) = Some (ch c2)
    /\ (ch c1 <> ch c2 ->
        get2 g (Z.to_nat (my - y c1)) (Z.to_nat (x c1)) <> Some (ch c1)).
Proof.
  intros Hx12 Hy12 Hx0 Hy0 Hpost.
  set (cells := pre ++ c1 :: mid ++ c2 :: post).
  assert (c2 ∈ cells) as Hin.
  { unfold cells. rewrite elem_of_app, elem_of_cons, elem_of_app, elem_of_cons. tauto. }
  destruct (py_max_ok (map x cells)) as [mx Hmx].
  { unfold cells. by destruct pre. }
  destruct (py_max_ok (map y cells)) as [my Hmy].
  { unfold cells. by destruct pre. }
  assert (x c2 <= mx) as Hxm.
  { pose proof (py_max_ge _ _ Hmx) as H. rewrite Forall_forall in H.
    apply (H (x c2)). by apply list_elem_of_fmap_2. }
  assert (y c2 <= my) as Hym.
  { pose proof (py_max_ge _ _ Hmy) as H. rewrite Forall_forall in H.
    apply (H (y c2)). by apply list_elem_of_fmap_2. }
  destruct (build_grid_spec cells mx my Hmx Hmy) as (g & Hg & Hs & Hget).
  exists mx, my, g. split; [done |]. split; [done |]. split; [done |].
  assert (get2 g (Z.to_nat (my - y c2)) (Z.to_nat (x c2)) = Some (ch c2)) as Hget2.
  { unfold range_len in Hget. rewrite Hget by lia. unfold expected.
    replace (Z.of_nat (Z.to_nat (x c2))) with (x c2) by lia.
    replace (my - Z.of_nat (Z.to_nat (my - y c2))) with (y c2) by lia.
    unfold cells.
    replace (pre ++ c1 :: mid ++ c2 :: post) with ((pre ++ c1 :: mid) ++ c2 :: post)
      by (by rewrite <- app_assoc).
    rewrite last_at_app, last_at_cons.
    apply last_at_none in Hpost. rewrite Hpost.
    unfold at_xy. by rewrite !Z.eqb_refl. }
  split; [done |]. intros Hne. rewrite Hx12, Hy12, Hget2. congruence.
Qed.

Lemma later_cell_overwrites_witness :
  let c1 := mkCell 1 2 (lit "p") in
  let c2 := mkCell 1 2 (lit "q") in
  let cells := [mkCell 3 0 (lit "z")] ++ c1 :: [mkCell 0 4 (lit "y")] ++ c2 :: [mkCell 2 2 (lit "w")] in
  exists mx my g,
    py_max (map x cells) = Ok mx /\ py_max (map y cells) = Ok my
    /\ build_grid cells = Ok g
    /\ get2 g (Z.to_nat (my - y c2)) (Z.to_nat (x c2)) = Some (ch c2)
    /\ (ch c1 <> ch c2 ->
        get2 g (Z.to_nat (my - y c1)) (Z.to_nat (x c1)) <> Some (ch c1)).
Proof.
  apply (later_cell_overwrites [mkCell 3 0 (lit "z")] [mkCell 0 4 (lit "y")]
           [mkCell 2 2 (lit "w")] (mkCell 1 2 (lit "p")) (mkCell 1 2 (lit "q")));
    try reflexivity; try (simpl; lia).
  repeat constructor.
Defined.

(** ** The table parser: lemmas *)

Lemma is_empty_true {A} (l : list A) : is_empty l = true <-> l = [].
Proof. by destruct l. Qed.

Lemma is_empty_false {A} (l : list A) : is_empty l = false <-> l <> [].
Proof. by destruct l. Qed.

Lemma choose_ch_one_char (t : pystr) : one_char (choose_ch t).
Proof. unfold choose_ch. by destruct t as [|k [|k' t]]. Qed.

Lemma find_non_space (t : pystr) :
  match List.find (fun c => negb (c =? SPACE)%N) t with
  | Some k => exists pre post, t = pre ++ k :: post /\ Forall (fun c => c = SPACE) pre /\ k <> SPACE
  | None => Forall (fun c => c = SPACE) t
  end.
Proof.
  induction t as [|c t IH]; simpl; [constructor |].
  destruct (N.eqb_spec c SPACE) as [-> | Hne]; simpl.
  - destruct (List.find (fun c => negb (c =? SPACE)%N) t) as [k|].
    + destruct IH as (pre & post & -> & Hpre & Hk).
      exists (SPACE :: pre), post. split; [done |]. split; [by constructor | done].
    + by constructor.
  - exists [], t. split; [done |]. split; [constructor | done].
Qed.

Lemma lstrip_head (s : pystr) (k : char) :
  head (lstrip s) = Some k -> isspace k = false.
Proof.
  induction s as [|c s IH]; [done |]. simpl.
  destruct (isspace c) eqn:E; [exact IH |]. by intros [= <-].
Qed.

Lemma clean_text_head (s : pystr) (k : char) :
  head (_clean_text s) = Some k -> isspace k = false.
Proof. unfold _clean_text, strip. apply lstrip_head. Qed.

(** A cleaned text does not start with a space, so the character chosen
    from it is its first character, and the default of [next] is never
    taken. *)
Lemma choose_ch_cleaned (s : pystr) :
  choose_ch (_clean_text s) =
  match _clean_text s with
  | [] => [SPACE]
  | k :: _ => [k]
  end.
Proof.
  pose proof (clean_text_head s) as H.
  destruct (_clean_text s) as [|k [|k' t]]; [done | done |].
  specialize (H k eq_refl). unfold choose_ch, first_non_space. simpl.
  destruct (N.eqb_spec k SPACE) as [-> | _]; [discriminate H | done].
Qed.

Section ParserFacts.

Variable unicode_decimal : char -> option N.
Variable int_max_str_digits : nat.
Variable BeautifulSoup : pystr -> node.

Abbreviation int := (py_int unicode_decimal int_max_str_digits).
Abbreviation row_cell' := (row_cell unicode_decimal int_max_str_digits).
Abbreviation rejected' := (rejected unicode_decimal int_max_str_digits).
Abbreviation parse :=
  (_parse_cells_from_published_doc_html unicode_decimal int_max_str_digits BeautifulSoup).

Lemma int_empty : int [] = None.
Proof. reflexivity. Qed.

(** [row_cell] in terms of the texts of the row. *)
Lemma row_cell_unfold (tr : node) :
  row_cell' tr =
  if (length (row_tds tr) <? 3)%nat then None
  else if is_empty (cell_text tr 0) || is_empty (cell_text tr 2) then None
  else match int (cell_text tr 0), int (cell_text tr 2) with
       | Some xv, Some yv => Some (mkCell xv yv (choose_ch (cell_text tr 1)))
       | _, _ => None
       end.
Proof.
  unfold row_cell, cell_text, raw_text, row_tds.
  by destruct (find_all ["td"; "th"] tr) as [|td0 [|td1 [|td2 rest]]].
Qed.

Lemma row_cell_none (tr : node) : row_cell' tr = None <-> rejected' tr.
Proof.
  rewrite row_cell_unfold. unfold rejected.
  destruct (Nat.ltb_spec (length (row_tds tr)) 3) as [Hlt | Hge].
  { split; [by left | done]. }
  destruct (cell_text tr 0) as [|a t0] eqn:E0; simpl.
  { split; [by right; left | done]. }
  destruct (cell_text tr 2) as [|b t2] eqn:E2; simpl.
  { split; [by right; right; left | done]. }
  destruct (int (a :: t0)) as [xv|].
  - destruct (int (b :: t2)) as [yv|].
    + split; [done |]. intros [H | [H | [H | [H | H]]]]; try done. lia.
    + split; [by do 4 right | done].
  - split; [by do 3 right; left | done].
Qed.

Lemma row_cell_some (tr : node) (c : Cell) :
  row_cell' tr = Some c <->
  (3 <= length (row_tds tr))%nat
  /\ int (cell_text tr 0) = Some (x c) /\ int (cell_text tr 2) = Some (y c)
  /\ ch c = choose_ch (cell_text tr 1).
Proof.
  rewrite row_cell_unfold.
  destruct (Nat.ltb_spec (length (row_tds tr)) 3) as [Hlt | Hge].
  { split; [done | lia]. }
  destruct (cell_text tr 0) as [|a t0] eqn:E0; simpl.
  { rewrite int_empty. split; [done | by intros (_ & ? & _)]. }
  destruct (cell_text tr 2) as [|b t2] eqn:E2; simpl.
  { rewrite int_empty. split; [done | by intros (_ & _ & ? & _)]. }
  destruct (int (a :: t0)) as [xv|]; [| split; [done | by intros (_ & ? & _)]].
  destruct (int (b :: t2)) as [yv|]; [| split; [done | by intros (_ & _ & ? & _)]].
  split.
  - intros [= <-]. by repeat split.
  - intros (_ & [= ->] & [= ->] & Hch). destruct c as [cx cy cc]. simpl in *. by subst.
Qed.

(** The loop of lines 38 to 65 appends, in the order of the rows, the Cell
    of every row that is not skipped. *)
Lemma loop_appends (rows : list node) (acc : list Cell) :
  fold_left (loop_body unicode_decimal int_max_str_digits) rows acc
  = acc ++ omap row_cell' rows.
Proof.
  revert acc. induction rows as [|tr rows IH]; intros acc; simpl.
  - by rewrite app_nil_r.
  - rewrite IH. unfold loop_body.
    change (omap row_cell' (tr :: rows))
      with (match row_cell' tr with Some c => c :: omap row_cell' rows | None => omap row_cell' rows end).
    destruct (row_cell' tr); [| done]. by rewrite <- app_assoc.
Qed.

(** The parser in one equation. *)
Lemma parse_unfold (html : pystr) :
  parse html =
  match find "table" (BeautifulSoup html) with
  | None => Err (ValueError no_table_msg)
  | Some table =>
      if (length (find_all ["tr"] table) <? 2)%nat then Err (ValueError no_data_rows_msg)
      else match omap row_cell' (drop 1 (find_all ["tr"] table)) with
           | [] => Err (ValueError no_valid_rows_msg)
           | c :: cells => Ok (c :: cells)
           end
  end.
Proof.
  unfold _parse_cells_from_published_doc_html.
  destruct (find "table" (BeautifulSoup html)) as [table|]; [| done].
  rewrite loop_appends. simpl.
  destruct (find_all ["tr"] table) as [|hdr rows]; [done |]. simpl.
  destruct (length rows <? 1)%nat eqn:E.
  - destruct rows; [done | discriminate E].
  - destruct rows as [|r rows]; [discriminate E |].
    simpl. destruct (row_cell' r); [done |]. by destruct (list_omap _ _ _ rows).
Qed.

Lemma parse_ok_nonempty (html : pystr) (cells : list Cell) :
  parse html = Ok cells -> cells <> [].
Proof.
  rewrite parse_unfold. destruct (find _ _); [| done].
  destruct (_ <? _)%nat; [done |]. destruct (omap _ _); [done |]. by intros [= <-].
Qed.

Lemma parse_ok_cells (html : pystr) (cells : list Cell) :
  parse html = Ok cells ->
  exists table, find "table" (BeautifulSoup html) = Some table
    /\ (2 <= length (find_all ["tr"] table))%nat
    /\ cells = omap row_cell' (drop 1 (find_all ["tr"] table)).
Proof.
  rewrite parse_unfold. destruct (find _ _) as [table|]; [| done].
  destruct (Nat.ltb_spec (length (find_all ["tr"] table)) 2); [done |].
  destruct (omap _ _) eqn:E; [done |]. intros [= <-]. by exists table.
Qed.

Lemma parse_ok_one_char (html : pystr) (cells : list Cell) :
  parse html = Ok cells -> Forall (fun c => one_char (ch c)) cells.
Proof.
  intros (table & _ & _ & ->)%parse_ok_cells. apply Forall_forall. intros c Hc.
  apply list_elem_of_omap in Hc as (tr & _ & Htr).
  apply row_cell_some in Htr as (_ & _ & _ & ->). apply choose_ch_one_char.
Qed.

End ParserFacts.

Lemma omap_nil_iff {A B} (f : A -> option B) (l : list A) :
  omap f l = [] <-> Forall (fun a => f a = None) l.
Proof.
  induction l as [|a l IH].
  - split; [constructor | done].
  - change (omap f (a :: l))
      with (match f a with Some b => b :: omap f l | None => omap f l end).
    destruct (f a) eqn:E.
    + split; [done |]. intros H. inversion H; congruence.
    + rewrite IH. split; [by constructor |]. intros H. by inversion H.
Qed.

(** ** The table parser: theorems *)

Section ParserClaims.

Variable unicode_decimal : char -> option N.
Variable int_max_str_digits : nat.
Variable BeautifulSoup : pystr -> node.

Abbreviation int := (py_int unicode_decimal int_max_str_digits).
Abbreviation row_cell' := (row_cell unicode_decimal int_max_str_digits).
Abbreviation rejected' := (rejected unicode_decimal int_max_str_digits).
Abbreviation no_table' := (no_table BeautifulSoup).
Abbreviation too_few_rows' := (too_few_rows BeautifulSoup).
Abbreviation all_rows_skipped' :=
  (all_rows_skipped unicode_decimal int_max_str_digits BeautifulSoup).
Abbreviation parse :=
  (_parse_cells_from_published_doc_html unicode_decimal int_max_str_digits BeautifulSoup).

(** C4. The parser raises if and only if the document has no table, or
    its first table has fewer than two rows, or every row after the first
    is skipped; the error is a [ValueError] whose message tells which; in
    every other case it returns a non-empty sequence of Cells. *)
Theorem parser_fails_in_three_cases (html : pystr) :
  ((exists e, parse html = Err e)
     <-> no_table' html \/ too_few_rows' html \/ all_rows_skipped' html)
  /\ (no_table' html -> parse html = Err (ValueError no_table_msg))
  /\ (too_few_rows' html -> parse html = Err (ValueError no_data_rows_msg))
  /\ (all_rows_skipped' html -> parse html = Err (ValueError no_valid_rows_msg))
  /\ (~ (no_table' html \/ too_few_rows' html \/ all_rows_skipped' html) ->
      exists cells, parse html = Ok cells /\ cells <> []).
Proof.
  unfold no_table, too_few_rows, all_rows_skipped. rewrite parse_unfold.
  destruct (find "table" (BeautifulSoup html)) as [table|].
  2:{ split; [split; [by left | eauto] |]. split; [done |].
      split; [by intros (t & ? & _) |]. split; [by intros (t & ? & _) |].
      intros H. exfalso. apply H. by left. }
  destruct (Nat.ltb_spec (length (find_all ["tr"] table)) 2) as [Hlt | Hge].
  { split; [split; [intros _; right; left; eauto | eauto] |].
    split; [done |]. split; [done |].
    split; [intros (t & [= <-] & ? & _); lia |].
    intros H. exfalso. apply H. right. left. eauto. }
  destruct (omap row_cell' (drop 1 (find_all ["tr"] table))) as [|c cells] eqn:E.
  - apply omap_nil_iff in E.
    split; [split; [intros _; right; right; eauto | eauto] |].
    split; [done |]. split; [intros (t & [= <-] & ?); lia |].
    split; [done |].
    intros H. exfalso. apply H. right. right. eauto.
  - assert (~ Forall (fun tr => row_cell' tr = None) (drop 1 (find_all ["tr"] table))) as Hn.
    { intros H%omap_nil_iff. congruence. }
    split.
    { split; [by intros [e ?] |].
      intros [? | [(t & [= <-] & ?) | (t & [= <-] & _ & ?)]]; [done | lia | done]. }
    split; [done |]. split; [intros (t & [= <-] & ?); lia |].
    split; [intros (t & [= <-] & _ & ?); done |].
    intros _. by exists (c :: cells).
Qed.

(** C5. A row after the header with fewer than three cells, or an empty
    cleaned [x] or [y] text, or an [x] or [y] text that [int] refuses,
    appends no Cell and raises nothing: where some other row is accepted,
    the parser returns the Cells of the other rows. *)
Theorem malformed_row_is_skipped (html : pystr) (table hdr : node)
    (before after : list node) (r : node) :
  find "table" (BeautifulSoup html) = Some table ->
  find_all ["tr"] table = hdr :: before ++ r :: after ->
  rejected' r ->
  (exists r', r' ∈ before ++ after /\ is_Some (row_cell' r')) ->
  row_cell' r = None
  /\ exists cells, parse html = Ok cells /\ cells <> []
       /\ cells = omap row_cell' before ++ omap row_cell' after.
Proof.
  intros Hfind Hrows Hrej (r' & Hin & [c' Hc']).
  apply row_cell_none in Hrej. split; [done |].
  rewrite (parse_unfold unicode_decimal int_max_str_digits BeautifulSoup), Hfind, Hrows.
  assert ((length (hdr :: before ++ r :: after) <? 2)%nat = false) as ->.
  { apply Nat.ltb_ge. simpl. rewrite length_app. simpl. lia. }
  change (drop 1 (hdr :: before ++ r :: after)) with (before ++ r :: after).
  rewrite omap_app.
  change (omap row_cell' (r :: after))
    with (match row_cell' r with Some c => c :: omap row_cell' after | None => omap row_cell' after end).
  rewrite Hrej.
  assert (c' ∈ omap row_cell' before ++ omap row_cell' after) as Hc.
  { rewrite <- omap_app. apply list_elem_of_omap. eauto. }
  destruct (omap row_cell' before ++ omap row_cell' after) as [|c cells] eqn:E'.
  - by apply elem_of_nil in Hc.
  - by exists (c :: cells).
Qed.

(** C6. The character of an accepted row, from the cleaned text of its
    second cell: a blank when the text is empty, the text when it is one
    character, and otherwise its first character that is not a space, or
    its first character when all are spaces; so it is one character. The
    raw text [A ] gives [A], and the raw text of two spaces gives a blank. *)
Theorem character_of_accepted_row (tr : node) (c : Cell) :
  row_cell' tr = Some c ->
  one_char (ch c)
  /\ (cell_text tr 1 = [] -> ch c = [SPACE])
  /\ (forall k, cell_text tr 1 = [k] -> ch c = [k])
  /\ ((1 < length (cell_text tr 1))%nat ->
      exists k, ch c = [k]
        /\ ((exists pre post, cell_text tr 1 = pre ++ k :: post
               /\ Forall (fun s => s = SPACE) pre /\ k <> SPACE)
            \/ (Forall (fun s => s = SPACE) (cell_text tr 1)
                /\ head (cell_text tr 1) = Some k)))
  /\ (raw_text tr 1 = lit "A " -> ch c = lit "A")
  /\ (raw_text tr 1 = lit "  " -> ch c = [SPACE]).
Proof.
  intros (_ & _ & _ & ->)%row_cell_some.
  split; [apply choose_ch_one_char |].
  split; [by intros -> |]. split; [by intros k -> |]. split.
  - unfold cell_text. destruct (_clean_text (raw_text tr 1)) as [|k0 [|k1 t]];
      simpl; [lia | lia | intros _].
    unfold choose_ch, first_non_space, is_empty.
    pose proof (find_non_space (k0 :: k1 :: t)) as H.
    destruct (List.find (fun c => negb (c =? SPACE)%N) (k0 :: k1 :: t)) as [k|];
      simpl; eauto.
  - unfold cell_text. split; by intros ->.
Qed.

(** C8. The parser returns the Cells of the accepted rows after the
    header, each row giving at most one Cell, in the order of the rows:
    nothing is sorted and no duplicate is dropped. *)
Theorem cells_follow_row_order (html : pystr) (table hdr : node)
    (data : list node) (cells : list Cell) :
  find "table" (BeautifulSoup html) = Some table ->
  find_all ["tr"] table = hdr :: data ->
  parse html = Ok cells ->
  cells = omap row_cell' data.
Proof.
  intros Hfind Hrows (table' & Hfind' & _ & ->)%parse_ok_cells.
  assert (table' = table) as -> by congruence. by rewrite Hrows.
Qed.

End ParserClaims.

(** ** [int] on a minus sign and ASCII digits *)

Lemma is_digit_ascii (c : char) : is_digit c = true -> (c <? 127)%N = true.
Proof.
  unfold is_digit, in_range. rewrite andb_true_iff, !N.leb_le, N.ltb_lt. lia.
Qed.

Lemma is_digit_not_underscore (c : char) : is_digit c = true -> (c =? UNDERSCORE)%N = false.
Proof.
  unfold is_digit, in_range, UNDERSCORE. rewrite andb_true_iff, !N.leb_le, N.eqb_neq. lia.
Qed.

Lemma span_all_digits (ds : pystr) : all_digits ds -> span_digits ds = (ds, []).
Proof.
  induction 1 as [|c ds Hc _ IH]; [done |]. simpl.
  unfold is_digit_or_us. by rewrite Hc, IH.
Qed.

Lemma underscores_ok_all_digits (ds : pystr) :
  all_digits ds -> underscores_ok false ds = true.
Proof.
  induction 1 as [|c ds Hc _ IH]; [done |]. simpl.
  by rewrite (is_digit_not_underscore c Hc).
Qed.

Lemma digits_of_all_digits (ds : pystr) : all_digits ds -> digits_of ds = ds.
Proof.
  induction 1 as [|c ds Hc _ IH]; [done |]. unfold digits_of in *. simpl.
  by rewrite Hc, IH.
Qed.

Lemma py_int_minus_digits (ud : char -> option N) (lim : nat) (ds : pystr) :
  ds <> [] -> all_digits ds -> over_digit_limit lim (length ds) = false ->
  py_int ud lim (MINUS :: ds) = Some (- decimal_value ds).
Proof.
  intros Hne Hds Hlim. unfold py_int.
  assert (to_ascii_buffer ud ds = ds) as Hbuf.
  { clear Hne Hlim. induction Hds as [|c ds Hc _ IH]; [done |]. simpl.
    by rewrite (is_digit_ascii c Hc), IH. }
  change (to_ascii_buffer ud (MINUS :: ds)) with (MINUS :: to_ascii_buffer ud ds).
  rewrite Hbuf. change (skip_space (MINUS :: ds)) with (MINUS :: ds).
  change (MINUS =? PLUS)%N with false. change (MINUS =? MINUS)%N with true.
  cbv iota. unfold long_from_string. rewrite (span_all_digits ds Hds).
  destruct ds as [|c ds']; [done |].
  inversion Hds as [|? ? Hc Hds']; subst.
  rewrite (is_digit_not_underscore c Hc), (underscores_ok_all_digits _ Hds).
  rewrite (digits_of_all_digits _ Hds), Hlim. done.
Qed.

Lemma populate_filter (mx my : Z) (cells : list Cell) (g : grid) :
  populate mx my g cells = populate mx my g (List.filter (in_bounds mx my) cells).
Proof.
  revert g. induction cells as [|c cells IH]; intros g; [done |]. simpl.
  unfold place at 1. destruct (in_bounds mx my c) eqn:E; simpl.
  - unfold place. rewrite E. destruct (setitem2 _ _ _ _); simpl; [apply IH | done].
  - apply IH.
Qed.

(** ** The pipeline: theorems *)

Section PipelineClaims.

Variable unicode_decimal : char -> option N.
Variable int_max_str_digits : nat.
Variable BeautifulSoup : pystr -> node.

Abbreviation int := (py_int unicode_decimal int_max_str_digits).
Abbreviation row_cell' := (row_cell unicode_decimal int_max_str_digits).
Abbreviation parse :=
  (_parse_cells_from_published_doc_html unicode_decimal int_max_str_digits BeautifulSoup).

Lemma parse_ok_maxima (html : pystr) (cells : list Cell) :
  parse html = Ok cells ->
  exists mx my, py_max (map x cells) = Ok mx /\ py_max (map y cells) = Ok my.
Proof.
  intros H%parse_ok_nonempty.
  destruct (py_max_ok (map x cells)) as [mx Hx]; [by destruct cells |].
  destruct (py_max_ok (map y cells)) as [my Hy]; [by destruct cells |].
  eauto.
Qed.

(** C2 (amended). Where the parser returns Cells, the program prints
    [max_y + 1] lines when [max_y >= -1] and none when it is less, and
    every line has [max_x + 1] characters when [max_x >= -1] and none when
    it is less. *)
Theorem printed_dimensions (html : pystr) (cells : list Cell) :
  parse html = Ok cells ->
  exists mx my g,
    py_max (map x cells) = Ok mx /\ py_max (map y cells) = Ok my
    /\ build_grid cells = Ok g
    /\ Z.of_nat (length (print_rows g)) = Z.max 0 (my + 1)
    /\ Forall (fun line => Z.of_nat (length line) = Z.max 0 (mx + 1)) (print_rows g).
Proof.
  intros Hp. destruct (parse_ok_maxima html cells Hp) as (mx & my & Hx & Hy).
  destruct (build_grid_spec cells mx my Hx Hy) as (g & Hg & Hs & _).
  pose proof (build_grid_one_char cells g (parse_ok_one_char _ _ _ _ _ Hp) Hg) as H1.
  destruct (print_rows_lengths g _ _ Hs H1) as [Hrows Hcols].
  exists mx, my, g. repeat (split; [done |]). unfold range_len in *. split; [lia |].
  eapply Forall_impl; [exact Hcols |]. simpl. intros line ->. lia.
Qed.

(** C9. The Cells the parser returns are not empty, so both maxima are
    computed; and the program never ends with the [ValueError] that [max]
    raises on an empty sequence. *)
Theorem max_never_on_empty :
  (forall html cells, parse html = Ok cells ->
     cells <> []
     /\ exists mx my, py_max (map x cells) = Ok mx /\ py_max (map y cells) = Ok my)
  /\ (forall requests_get url,
        print_secret_message_grid unicode_decimal int_max_str_digits BeautifulSoup
          requests_get url <> Err (ValueError max_empty_msg)).
Proof.
  split.
  - intros html cells Hp. split; [by eapply parse_ok_nonempty | by eapply parse_ok_maxima].
  - intros requests_get url. unfold print_secret_message_grid.
    destruct (requests_get url 30) as [detail | resp]; [done |].
    unfold raise_for_status. destruct (_ && _); [done |]. simpl.
    destruct (parse (text resp)) as [cells | e] eqn:Hp; simpl.
    + destruct (parse_ok_maxima _ _ Hp) as (mx & my & Hx & Hy).
      destruct (build_grid_spec cells mx my Hx Hy) as (g & -> & _). done.
    + rewrite parse_unfold in Hp. destruct (find _ _); [| by injection Hp as <-].
      destruct (_ <? _)%nat; [by injection Hp as <- |].
      destruct (omap _ _); [by injection Hp as <- | done].
Qed.

(** C10. [int] reads a minus sign and digits as a negative number, and a
    row is accepted whatever the signs of its coordinates. In the loop
    over the Cells, a Cell with a negative coordinate leaves the grid as it
    is; a Cell with none is written at a row and a column inside the grid;
    nothing is raised, and the grid is the one that the Cells within
    bounds alone give. *)
Theorem negative_cells_accepted_not_placed :
  (forall ds, ds <> [] -> all_digits ds ->
     over_digit_limit int_max_str_digits (length ds) = false ->
     int (MINUS :: ds) = Some (- decimal_value ds))
  /\ (forall tr xv yv, (3 <= length (row_tds tr))%nat ->
        int (cell_text tr 0) = Some xv -> int (cell_text tr 2) = Some yv ->
        row_cell' tr = Some (mkCell xv yv (choose_ch (cell_text tr 1))))
  /\ (forall cells mx my,
        py_max (map x cells) = Ok mx -> py_max (map y cells) = Ok my ->
        (exists g, build_grid cells = Ok g
           /\ populate mx my (blank_grid mx my) (List.filter (in_bounds mx my) cells) = Ok g)
        /\ forall c g, c ∈ cells ->
             shaped (range_len (my + 1)) (range_len (mx + 1)) g ->
             (x c < 0 \/ y c < 0 -> place mx my g c = Ok g)
             /\ (0 <= x c -> 0 <= y c ->
                 in_bounds mx my c = true
                 /\ 0 <= my - y c < Z.of_nat (length g)
                 /\ (forall row, row ∈ g -> 0 <= x c < Z.of_nat (length row))
                 /\ exists g', place mx my g c = Ok g')).
Proof.
  split; [intros ds; apply py_int_minus_digits |]. split.
  - intros tr xv yv Hlen Hx Hy. apply row_cell_some. by repeat split.
  - intros cells mx my Hx Hy. split.
    + destruct (build_grid_spec cells mx my Hx Hy) as (g & Hg & _).
      exists g. split; [done |]. rewrite <- populate_filter.
      unfold build_grid in Hg. by rewrite Hx, Hy in Hg.
    + intros c g Hc Hs.
      assert (x c <= mx) as Hxm.
      { pose proof (py_max_ge _ _ Hx) as H. rewrite Forall_forall in H.
        apply (H (x c)). by apply list_elem_of_fmap_2. }
      assert (y c <= my) as Hym.
      { pose proof (py_max_ge _ _ Hy) as H. rewrite Forall_forall in H.
        apply (H (y c)). by apply list_elem_of_fmap_2. }
      split.
      * intros Hneg. unfold place.
        destruct (in_bounds mx my c) eqn:E; [| done].
        apply in_bounds_spec in E. lia.
      * intros Hx0 Hy0.
        assert (in_bounds mx my c = true) as Hb by (apply in_bounds_spec; lia).
        split; [done |]. pose proof Hs as [Hrows Hcols]. unfold range_len in *.
        split; [lia |]. split.
        { intros row Hrow. rewrite Forall_forall in Hcols.
          rewrite (Hcols row Hrow). lia. }
        unfold place. rewrite Hb.
        destruct (setitem2_in_range _ _ g (my - y c) (x c) (ch c) Hs) as (g' & Hg' & _);
          [lia | lia |]. eauto.
Qed.

Variable requests_get : pystr -> Z -> fetched.

Abbreviation run :=
  (print_secret_message_grid unicode_decimal int_max_str_digits BeautifulSoup requests_get).

(** C7 (amended). When the fetch brings a response: with a status from 400
    to 599 the program ends with the [HTTPError] of that status, whatever
    the parser would make of the body; with any other status, those from
    200 to 299 among them, the body goes to the parser and the program
    goes on with what the parser returns. *)
Theorem status_decides_parsing (url : pystr) (resp : Response) :
  requests_get url 30 = Responded resp ->
  (400 <= status_code resp < 600 ->
   forall BeautifulSoup',
     print_secret_message_grid unicode_decimal int_max_str_digits BeautifulSoup'
       requests_get url = Err (HTTPError (status_code resp)))
  /\ (~ (400 <= status_code resp < 600) ->
      run url = (try! cells := parse (text resp) in
                 try! g := build_grid cells in Ok (print_rows g)))
  /\ (200 <= status_code resp < 300 ->
      run url = (try! cells := parse (text resp) in
                 try! g := build_grid cells in Ok (print_rows g))).
Proof.
  intros Hget. unfold print_secret_message_grid. rewrite Hget. unfold raise_for_status.
  destruct (Z.leb_spec 400 (status_code resp)), (Z.ltb_spec (status_code resp) 600);
    simpl; (split; [| split]); intros; try done; lia.
Qed.

End PipelineClaims.

(** ** The theorems at concrete documents *)

(** C2, as stated, fails: a table whose only row has the coordinates
    [-2] and [-2] parses to one Cell, and the program prints no line, which
    is not [max_y + 1 = -1] lines. *)
Lemma negative_maxima_print_nothing :
  ~ (forall (ud : char -> option N) (lim : nat) (BeautifulSoup : pystr -> node)
            (html : pystr) (cells : list Cell) (mx my : Z) (g : grid),
        _parse_cells_from_published_doc_html ud lim BeautifulSoup html = Ok cells ->
        py_max (map x cells) = Ok mx -> py_max (map y cells) = Ok my ->
        build_grid cells = Ok g ->
        Z.of_nat (length (print_rows g)) = my + 1
        /\ Forall (fun line => Z.of_nat (length line) = mx + 1) (print_rows g)).
Proof.
  intros H.
  destruct (H ascii_decimal 4300%nat (fun _ => negative_document) []
              [mkCell (-2) (-2) (lit "a")] (-2) (-2) []) as [H1 _];
    try reflexivity.
  discriminate H1.
Qed.

Lemma printed_dimensions_witness :
  _parse_cells_from_published_doc_html ascii_decimal 4300 (fun _ => sample_document) []
    = Ok three_cells
  /\ exists mx my g,
       py_max (map x three_cells) = Ok mx /\ py_max (map y three_cells) = Ok my
       /\ build_grid three_cells = Ok g
       /\ Z.of_nat (length (print_rows g)) = Z.max 0 (my + 1)
       /\ Forall (fun line => Z.of_nat (length line) = Z.max 0 (mx + 1)) (print_rows g).
Proof.
  split; [reflexivity |].
  apply (printed_dimensions ascii_decimal 4300 (fun _ => sample_document) [] three_cells).
  reflexivity.
Defined.

Lemma malformed_row_is_skipped_witness :
  let row_cell' := row_cell ascii_decimal 4300 in
  let before := [tr ["1"; "b"; "0"]] in
  let after := [tr [""; "r"; "3"]; tr ["2"; "s"; "two"]; tr ["0"; "a"; "0"]; tr ["1"; "b"; "0"]] in
  row_cell' (tr ["7"; "q"]) = None
  /\ exists cells,
       _parse_cells_from_published_doc_html ascii_decimal 4300 (fun _ => noisy_document) []
         = Ok cells
       /\ cells <> []
       /\ cells = omap row_cell' before ++ omap row_cell' after.
Proof.
  apply (malformed_row_is_skipped ascii_decimal 4300 (fun _ => noisy_document) []
           noisy_table header [tr ["1"; "b"; "0"]]
           [tr [""; "r"; "3"]; tr ["2"; "s"; "two"]; tr ["0"; "a"; "0"]; tr ["1"; "b"; "0"]]
           (tr ["7"; "q"])).
  - reflexivity.
  - reflexivity.
  - left. simpl. lia.
  - exists (tr ["1"; "b"; "0"]). split; [apply list_elem_of_here | by eexists].
Defined.

(** The rows that the parser skips in [noisy_document]: two cells only,
    an empty [x] text, a [y] text that is no number. *)
Example noisy_parse :
  _parse_cells_from_published_doc_html ascii_decimal 4300 (fun _ => noisy_document) []
  = Ok [mkCell 1 0 (lit "b"); mkCell 0 0 (lit "a"); mkCell 1 0 (lit "b")].
Proof. reflexivity. Qed.

Lemma character_of_accepted_row_witness :
  let r := tr ["3"; "A "; "4"] in
  let c := mkCell 3 4 (lit "A") in
  row_cell ascii_decimal 4300 r = Some c
  /\ one_char (ch c)
  /\ (cell_text r 1 = [] -> ch c = [SPACE])
  /\ (forall k, cell_text r 1 = [k] -> ch c = [k])
  /\ ((1 < length (cell_text r 1))%nat ->
      exists k, ch c = [k]
        /\ ((exists pre post, cell_text r 1 = pre ++ k :: post
               /\ Forall (fun s => s = SPACE) pre /\ k <> SPACE)
            \/ (Forall (fun s => s = SPACE) (cell_text r 1)
                /\ head (cell_text r 1) = Some k)))
  /\ (raw_text r 1 = lit "A " -> ch c = lit "A")
  /\ (raw_text r 1 = lit "  " -> ch c = [SPACE]).
Proof.
  split; [reflexivity |].
  apply (character_of_accepted_row ascii_decimal 4300 (tr ["3"; "A "; "4"])
           (mkCell 3 4 (lit "A"))).
  reflexivity.
Defined.

Example blank_character_row :
  row_cell ascii_decimal 4300 (tr ["3"; "  "; "4"]) = Some (mkCell 3 4 [SPACE]).
Proof. reflexivity. Qed.

Lemma cells_follow_row_order_witness :
  let cells := [mkCell 1 0 (lit "b"); mkCell 0 0 (lit "a"); mkCell 1 0 (lit "b")] in
  _parse_cells_from_published_doc_html ascii_decimal 4300 (fun _ => noisy_document) []
    = Ok cells
  /\ cells = omap (row_cell ascii_decimal 4300)
               [tr ["1"; "b"; "0"]; tr ["7"; "q"]; tr [""; "r"; "3"];
                tr ["2"; "s"; "two"]; tr ["0"; "a"; "0"]; tr ["1"; "b"; "0"]].
Proof.
  split; [reflexivity |].
  apply (cells_follow_row_order ascii_decimal 4300 (fun _ => noisy_document) []
           noisy_table header); reflexivity.
Defined.

(** C7, as stated, fails: 300 is no success status, and on a response of
    status 300 whose body is the page the program raises nothing, parses
    the body and prints the grid. *)
Lemma multiple_choices_body_is_parsed :
  ~ (forall (ud : char -> option N) (lim : nat) (BeautifulSoup : pystr -> node)
            (requests_get : pystr -> Z -> fetched) (url : pystr) (resp : Response),
        requests_get url 30 = Responded resp ->
        ~ (200 <= status_code resp < 300) ->
        exists e, print_secret_message_grid ud lim BeautifulSoup requests_get url = Err e).
Proof.
  intros H.
  destruct (H ascii_decimal 4300%nat sample_parser
              (fun _ _ => Responded multiple_choices_response) published_url
              multiple_choices_response)
    as [e He]; [reflexivity | simpl; lia |].
  vm_compute in He. discriminate He.
Qed.

Example multiple_choices_run :
  print_secret_message_grid ascii_decimal 4300 sample_parser
    (fun _ _ => Responded multiple_choices_response) published_url
  = Ok [lit "c "; lit "ab"].
Proof. vm_compute. reflexivity. Qed.

(** A response of status 304 has no body: the program goes on to the
    parser, which finds no table. *)
Example not_modified_run :
  print_secret_message_grid ascii_decimal 4300 sample_parser
    (fun _ _ => Responded not_modified_response) published_url
  = Err (ValueError no_table_msg).
Proof. vm_compute. reflexivity. Qed.

Lemma status_decides_parsing_witness :
  let requests_get := fun (_ : pystr) (_ : Z) => Responded ok_response in
  let BeautifulSoup := fun _ : pystr => sample_document in
  requests_get [] 30 = Responded ok_response
  /\ (400 <= status_code ok_response < 600 ->
      forall BeautifulSoup',
        print_secret_message_grid ascii_decimal 4300 BeautifulSoup' requests_get []
        = Err (HTTPError (status_code ok_response)))
  /\ (~ (400 <= status_code ok_response < 600) ->
      print_secret_message_grid ascii_decimal 4300 BeautifulSoup requests_get []
      = (try! cells := _parse_cells_from_published_doc_html ascii_decimal 4300
                          BeautifulSoup (text ok_response) in
         try! g := build_grid cells in Ok (print_rows g)))
  /\ (200 <= status_code ok_response < 300 ->
      print_secret_message_grid ascii_decimal 4300 BeautifulSoup requests_get []
      = (try! cells := _parse_cells_from_published_doc_html ascii_decimal 4300
                          BeautifulSoup (text ok_response) in
         try! g := build_grid cells in Ok (print_rows g))).
Proof.
  split; [reflexivity |].
  apply (status_decides_parsing ascii_decimal 4300 (fun _ => sample_document)
           (fun _ _ => Responded ok_response) [] ok_response).
  reflexivity.
Defined.

Example transport_failure_stops :
  print_secret_message_grid ascii_decimal 4300 (fun _ => sample_document)
    (fun _ _ => Failed "timed out") []
  = Err (RequestException "timed out").
Proof. reflexivity. Qed.

Example server_error_stops :
  print_secret_message_grid ascii_decimal 4300 (fun _ => sample_document)
    (fun _ _ => Responded (mkResponse 503 [])) []
  = Err (HTTPError 503).
Proof. reflexivity. Qed.

Example negative_row_accepted :
  _parse_cells_from_published_doc_html ascii_decimal 4300
    (fun _ => document [header; tr ["-1"; "n"; "2"]; tr ["1"; "p"; "-3"]; tr ["0"; "o"; "0"]]) []
  = Ok [mkCell (-1) 2 (lit "n"); mkCell 1 (-3) (lit "p"); mkCell 0 0 (lit "o")]
  /\ build_grid [mkCell (-1) 2 (lit "n"); mkCell 1 (-3) (lit "p"); mkCell 0 0 (lit "o")]
     = Ok [[lit " "; lit " "]; [lit " "; lit " "]; [lit "o"; lit " "]].
Proof. split; reflexivity. Qed.

(** ** [_clean_text]: further properties *)

Lemma isspace_SPACE : isspace SPACE = true.
Proof. reflexivity. Qed.

Lemma isspace_NBSP : isspace NBSP = true.
Proof. reflexivity. Qed.

Lemma lstrip_suffix (s : pystr) : exists pre, s = pre ++ lstrip s.
Proof.
  induction s as [|c s [pre IH]]; [by exists [] |]. simpl.
  destruct (isspace c); [| by exists []].
  exists (c :: pre). simpl. by rewrite <- IH.
Qed.

Lemma rstrip_prefix (s : pystr) : exists post, s = rstrip s ++ post.
Proof.
  unfold rstrip. destruct (lstrip_suffix (rev s)) as [pre H].
  exists (rev pre). rewrite <- rev_app_distr, <- H. by rewrite rev_involutive.
Qed.

Lemma lstrip_id (s : pystr) :
  (forall k, head s = Some k -> isspace k = false) -> lstrip s = s.
Proof.
  destruct s as [|c s]; [done |]. intros H. simpl. by rewrite (H c eq_refl).
Qed.

Lemma head_rev (s : pystr) : head (rev s) = last s.
Proof.
  induction s as [|c s IH] using rev_ind; [done |].
  by rewrite rev_app_distr, last_snoc.
Qed.

Lemma rstrip_id (s : pystr) :
  (forall k, last s = Some k -> isspace k = false) -> rstrip s = s.
Proof.
  intros H. unfold rstrip. rewrite lstrip_id; [apply rev_involutive |].
  intros k. rewrite head_rev. apply H.
Qed.

Lemma rstrip_last (s : pystr) (k : char) :
  last (rstrip s) = Some k -> isspace k = false.
Proof.
  unfold rstrip. rewrite <- head_rev, rev_involutive. apply lstrip_head.
Qed.

Lemma strip_last (s : pystr) (k : char) :
  last (strip s) = Some k -> isspace k = false.
Proof.
  unfold strip. destruct (lstrip_suffix (rstrip s)) as [pre H]. intros Hk.
  apply (rstrip_last s). rewrite H, last_app, Hk. done.
Qed.

Lemma single_spaced_app (a b : pystr) :
  single_spaced (a ++ b) -> single_spaced a /\ single_spaced b.
Proof.
  induction a as [|c1 a IH]; [done |]. simpl. intros [H1 H2].
  destruct (IH H2) as [Ha Hb]. split; [| done]. split; [| done].
  destruct a as [|c2 a]; [done |]. exact H1.
Qed.

(** What [re.sub] leaves: the space is the only whitespace, no two spaces
    are in a row, and after whitespace the result starts with none. *)
Lemma sub_ws_runs_spec (b : bool) (s : pystr) :
  Forall (fun c => isspace c = true -> c = SPACE) (sub_ws_runs b s)
  /\ single_spaced (sub_ws_runs b s)
  /\ (b = true -> forall k, head (sub_ws_runs b s) = Some k -> isspace k = false).
Proof.
  revert b. induction s as [|c s IH]; intros b; simpl.
  - split; [constructor |]. split; [done |]. by intros _ k.
  - destruct (isspace c) eqn:E.
    + destruct (IH true) as (H1 & H2 & H3). destruct b.
      * split; [done |]. split; [done |]. done.
      * split; [by constructor |]. split; [| done]. simpl. split; [| done].
        destruct (sub_ws_runs true s) as [|c2 t] eqn:E2; [done |].
        intros [_ ->]. by specialize (H3 eq_refl SPACE eq_refl).
    + destruct (IH false) as (H1 & H2 & _).
      split; [constructor; [congruence | done] |]. split.
      * simpl. split; [| done]. destruct (sub_ws_runs false s); [done |].
        intros [-> _]. by rewrite isspace_SPACE in E.
      * intros _ k [= <-]. done.
Qed.

(** Inside a cleaned text the space is the only whitespace, and no two
    spaces are in a row. *)
Lemma clean_text_inner (s : pystr) :
  Forall (fun c => isspace c = true -> c = SPACE) (_clean_text s)
  /\ single_spaced (_clean_text s).
Proof.
  unfold _clean_text, strip.
  set (u := sub_ws_runs false (replace_char NBSP SPACE s)).
  destruct (sub_ws_runs_spec false (replace_char NBSP SPACE s)) as (H1 & H2 & _).
  fold u in H1, H2.
  destruct (rstrip_prefix u) as [post Hpost].
  destruct (lstrip_suffix (rstrip u)) as [pre Hpre].
  rewrite Hpost, Hpre in H1, H2. split.
  - apply Forall_app in H1 as [H1 _]. by apply Forall_app in H1 as [_ H1].
  - apply single_spaced_app in H2 as [H2 _]. by apply single_spaced_app in H2 as [_ H2].
Qed.

Lemma clean_text_last (s : pystr) (k : char) :
  last (_clean_text s) = Some k -> isspace k = false.
Proof. unfold _clean_text. apply strip_last. Qed.

(** X1. A cleaned text starts and ends with no whitespace, holds no
    whitespace but the space, and no two spaces in a row. *)
Theorem clean_text_normalised (s : pystr) : normalised (_clean_text s).
Proof.
  unfold normalised. destruct (clean_text_inner s) as [H1 H2].
  split; [apply clean_text_head |]. split; [apply clean_text_last |].
  split; [exact H1 | exact H2].
Qed.

Lemma sub_ws_runs_id (b : bool) (t : pystr) :
  Forall (fun c => isspace c = true -> c = SPACE) t -> single_spaced t ->
  (b = true -> forall k, head t = Some k -> isspace k = false) ->
  sub_ws_runs b t = t.
Proof.
  revert b. induction t as [|c t IH]; intros b H1 H2 H3; [done |]. simpl.
  inversion H1 as [|? ? Hc Ht]; subst. simpl in H2. destruct H2 as [H2 H2'].
  destruct (isspace c) eqn:E.
  - destruct b; [by rewrite (H3 eq_refl c eq_refl) in E |].
    rewrite (Hc eq_refl). f_equal. apply IH; [done | done |].
    intros _ k Hk. destruct t as [|c2 t]; [done |]. injection Hk as ->.
    destruct (isspace k) eqn:Ek; [| done]. exfalso. apply H2.
    inversion Ht; subst. split; [by apply Hc | auto].
  - f_equal. apply IH; [done | done | done].
Qed.

Lemma replace_char_id (t : pystr) :
  Forall (fun c => isspace c = true -> c = SPACE) t -> replace_char NBSP SPACE t = t.
Proof.
  induction 1 as [|c t Hc _ IH]; [done |]. simpl. rewrite IH. f_equal.
  destruct (N.eqb_spec c NBSP) as [-> | _]; [| done].
  by specialize (Hc isspace_NBSP).
Qed.

(** X2. Cleaning changes no text that is normalised; so cleaning a
    cleaned text gives it back. *)
Theorem clean_text_idempotent (s : pystr) :
  (forall t, normalised t -> _clean_text t = t)
  /\ _clean_text (_clean_text s) = _clean_text s.
Proof.
  assert (forall t, normalised t -> _clean_text t = t) as H.
  { intros t (Hh & Hl & H1 & H2). unfold _clean_text, strip.
    rewrite (replace_char_id t H1), (sub_ws_runs_id false t H1 H2) by done.
    rewrite (rstrip_id t Hl). by apply lstrip_id. }
  split; [exact H |]. apply H. destruct (clean_text_inner s) as [H1 H2].
  split; [apply clean_text_head |]. split; [apply clean_text_last |]. by split.
Qed.

Lemma visible_cons (c : char) (s : pystr) :
  visible (c :: s) = if isspace c then visible s else c :: visible s.
Proof. unfold visible. simpl. by destruct (isspace c). Qed.

Lemma visible_app (a b : pystr) : visible (a ++ b) = visible a ++ visible b.
Proof. apply List.filter_app. Qed.

Lemma visible_rev (s : pystr) : visible (rev s) = rev (visible s).
Proof.
  induction s as [|c s IH]; [done |].
  change (rev (c :: s)) with (rev s ++ [c]).
  rewrite visible_app, IH, !visible_cons. change (visible []) with (@nil char).
  destruct (isspace c); [by rewrite app_nil_r | done].
Qed.

Lemma visible_lstrip (s : pystr) : visible (lstrip s) = visible s.
Proof.
  induction s as [|c s IH]; [done |].
  change (lstrip (c :: s)) with (if isspace c then lstrip s else c :: s).
  destruct (isspace c) eqn:E; [| done]. by rewrite visible_cons, E.
Qed.

Lemma visible_rstrip (s : pystr) : visible (rstrip s) = visible s.
Proof.
  unfold rstrip. by rewrite visible_rev, visible_lstrip, visible_rev, rev_involutive.
Qed.

Lemma visible_sub_ws_runs (b : bool) (s : pystr) : visible (sub_ws_runs b s) = visible s.
Proof.
  revert b. induction s as [|c s IH]; intros b; [done |].
  change (sub_ws_runs b (c :: s))
    with (if isspace c
          then (if b then sub_ws_runs true s else SPACE :: sub_ws_runs true s)
          else c :: sub_ws_runs false s).
  rewrite (visible_cons c s). destruct (isspace c) eqn:E.
  - destruct b; [apply IH |]. rewrite visible_cons, isspace_SPACE. apply IH.
  - by rewrite visible_cons, E, IH.
Qed.

Lemma visible_replace_char (s : pystr) : visible (replace_char NBSP SPACE s) = visible s.
Proof.
  induction s as [|c s IH]; [done |].
  change (replace_char NBSP SPACE (c :: s))
    with ((if (c =? NBSP)%N then SPACE else c) :: replace_char NBSP SPACE s).
  rewrite !visible_cons, IH.
  destruct (N.eqb_spec c NBSP) as [-> | _]; [| done].
  by rewrite isspace_SPACE, isspace_NBSP.
Qed.

(** X3. Cleaning keeps every character that is no whitespace, in its
    order, and adds none. *)
Theorem clean_text_keeps_visible (s : pystr) : visible (_clean_text s) = visible s.
Proof.
  unfold _clean_text, strip.
  by rewrite visible_lstrip, visible_rstrip, visible_sub_ws_runs, visible_replace_char.
Qed.

Lemma visible_nil (s : pystr) : visible s = [] <-> Forall (fun c => isspace c = true) s.
Proof.
  induction s as [|c s IH]; [by split; [constructor |] |].
  rewrite visible_cons. destruct (isspace c) eqn:E.
  - rewrite IH. split; [by constructor |]. intros H. by inversion H.
  - split; [done |]. intros H. inversion H; congruence.
Qed.

(** X5. The cleaned text is empty exactly when the text is whitespace
    throughout, the empty text included. *)
Theorem clean_text_empty_iff (s : pystr) :
  _clean_text s = [] <-> Forall (fun c => isspace c = true) s.
Proof.
  rewrite <- visible_nil.
  assert (visible (_clean_text s) = visible s) as <-.
  { unfold _clean_text, strip.
    by rewrite visible_lstrip, visible_rstrip, visible_sub_ws_runs, visible_replace_char. }
  split; [by intros -> |].
  intros H. pose proof (clean_text_head s) as Hh.
  destruct (_clean_text s) as [|k t]; [done |].
  specialize (Hh k eq_refl). by rewrite visible_cons, Hh in H.
Qed.

Lemma sub_ws_runs_replace_char (b : bool) (s : pystr) :
  sub_ws_runs b (replace_char NBSP SPACE s) = sub_ws_runs b s.
Proof.
  revert b. induction s as [|c s IH]; intros b; [done |]. simpl.
  destruct (N.eqb_spec c NBSP) as [-> | _].
  - rewrite isspace_SPACE, isspace_NBSP, IH. done.
  - by rewrite !IH.
Qed.

(** X4. The replacement of the no-break space at line 20 changes no
    result: the pattern of line 21 matches the no-break space as it
    stands. *)
Theorem nbsp_replacement_redundant (s : pystr) :
  _clean_text s = strip (sub_ws_runs false s).
Proof. unfold _clean_text. by rewrite sub_ws_runs_replace_char. Qed.

(** ** The grid: further properties *)

Lemma fold_max_in (l : list Z) (a : Z) : fold_left Z.max l a ∈ a :: l.
Proof.
  revert a. induction l as [|b l IH]; intros a; simpl; [apply list_elem_of_here |].
  specialize (IH (Z.max a b)). apply elem_of_cons in IH as [-> | IH].
  - destruct (Z.max_spec a b) as [[_ ->] | [_ ->]];
      [apply list_elem_of_further, list_elem_of_here | apply list_elem_of_here].
  - by do 2 apply list_elem_of_further.
Qed.

Lemma py_max_spec (l : list Z) (m : Z) :
  py_max l = Ok m <-> m ∈ l /\ Forall (fun b => b <= m) l.
Proof.
  split.
  - intros H. split; [| by apply py_max_ge].
    destruct l as [|a l]; [done |]. injection H as <-. apply fold_max_in.
  - intros [Hin Hall]. destruct (py_max_ok l) as [m' Hm']; [by destruct l; [inversion Hin |] |].
    rewrite Hm'. f_equal.
    pose proof (py_max_ge _ _ Hm') as Hall'.
    assert (m' ∈ l) as Hin' by (destruct l as [|a l]; [done |]; injection Hm' as <-; apply fold_max_in).
    rewrite Forall_forall in Hall, Hall'. specialize (Hall m' Hin'). specialize (Hall' m Hin). lia.
Qed.

(** [max] sees the elements only, not their order or number. *)
Lemma py_max_same_elements (l l' : list Z) :
  (forall a, a ∈ l <-> a ∈ l') -> py_max l = py_max l'.
Proof.
  intros H. destruct l as [|a l].
  - destruct l' as [|a' l']; [done |].
    exfalso. eapply not_elem_of_nil, H, list_elem_of_here.
  - destruct (py_max_ok (a :: l)) as [m Hm]; [done |]. rewrite Hm. symmetry.
    apply py_max_spec. apply py_max_spec in Hm as [Hin Hall]. split; [by apply H |].
    rewrite Forall_forall in *. intros b Hb. by apply Hall, H.
Qed.

(** Two grids of one shape that hold the same at every position are the
    same grid. *)
Lemma shaped_ext (rows cols : nat) (g g' : grid) :
  shaped rows cols g -> shaped rows cols g' ->
  (forall r c, (r < rows)%nat -> (c < cols)%nat -> get2 g r c = get2 g' r c) ->
  g = g'.
Proof.
  intros Hs Hs' H. apply list_eq. intros r.
  destruct (decide (r < rows)%nat) as [Hr | Hr].
  - destruct (lookup_lt_is_Some_2 g r) as [row Hrow]; [destruct Hs; lia |].
    destruct (lookup_lt_is_Some_2 g' r) as [row' Hrow']; [destruct Hs'; lia |].
    rewrite Hrow, Hrow'. f_equal. apply list_eq. intros c.
    pose proof (shaped_row _ _ _ _ _ Hs Hrow) as Hl.
    pose proof (shaped_row _ _ _ _ _ Hs' Hrow') as Hl'.
    destruct (decide (c < cols)%nat) as [Hc | Hc].
    + specialize (H r c Hr Hc). unfold get2 in H. by rewrite Hrow, Hrow' in H.
    + rewrite !lookup_ge_None_2 by lia. done.
  - destruct Hs as [Hs _], Hs' as [Hs' _]. rewrite !lookup_ge_None_2 by lia. done.
Qed.

(** The grid is a function of the coordinates that occur and of the
    character of the last Cell at each pair of coordinates. *)
Lemma build_grid_ext (cells cells' : list Cell) :
  (forall a, a ∈ map x cells <-> a ∈ map x cells') ->
  (forall a, a ∈ map y cells <-> a ∈ map y cells') ->
  (forall cx cy, ch <$> last_at cells cx cy = ch <$> last_at cells' cx cy) ->
  build_grid cells = build_grid cells'.
Proof.
  intros Hx Hy Hlast.
  pose proof (py_max_same_elements _ _ Hx) as Hmx.
  pose proof (py_max_same_elements _ _ Hy) as Hmy.
  destruct (py_max (map x cells)) as [mx | e] eqn:Ex.
  2:{ unfold build_grid. by rewrite Ex, <- Hmx. }
  destruct (py_max (map y cells)) as [my | e] eqn:Ey.
  2:{ destruct cells; [done |]. discriminate Ey. }
  destruct (build_grid_spec cells mx my Ex Ey) as (g & -> & Hs & Hg).
  destruct (build_grid_spec cells' mx my (eq_sym Hmx) (eq_sym Hmy)) as (g' & -> & Hs' & Hg').
  f_equal. apply (shaped_ext _ _ g g' Hs Hs'). intros r c Hr Hc.
  rewrite Hg, Hg' by done. f_equal. unfold expected.
  specialize (Hlast (Z.of_nat c) (my - Z.of_nat r)).
  destruct (last_at cells _ _), (last_at cells' _ _); simpl in Hlast; congruence.
Qed.

(** X6. With the memory for the grid of line 88 at hand (its exhaustion is
    outside this model), lines 85 to 92 raise exactly on the empty
    sequence, and then the [ValueError] of [max]; on every other sequence
    the writes of line 92 succeed and a grid results, whatever the
    coordinates. *)
Theorem build_grid_fails_iff_empty (cells : list Cell) :
  (forall e, build_grid cells = Err e <-> cells = [] /\ e = ValueError max_empty_msg)
  /\ (cells <> [] -> exists g, build_grid cells = Ok g).
Proof.
  destruct cells as [|c cells].
  - split; [| done]. intros e. split; [by intros [= <-] | by intros [_ ->]].
  - destruct (py_max_ok (map x (c :: cells))) as [mx Hx]; [done |].
    destruct (py_max_ok (map y (c :: cells))) as [my Hy]; [done |].
    destruct (build_grid_spec _ mx my Hx Hy) as (g & Hg & _). rewrite Hg.
    split; [| by exists g]. intros e. split; [done | by intros [? _]].
Qed.

Lemma last_at_shadowed (c1 : Cell) (rest : list Cell) (c2 : Cell) (cx cy : Z) :
  coords c1 = coords c2 -> c2 ∈ rest ->
  last_at (c1 :: rest) cx cy = last_at rest cx cy.
Proof.
  intros Hc Hin. rewrite last_at_cons.
  destruct (last_at rest cx cy) eqn:E; [done |].
  destruct (at_xy cx cy c1) eqn:E1; [| done]. exfalso.
  apply last_at_none in E. rewrite Forall_forall in E. specialize (E c2 Hin).
  unfold at_xy, coords in *. injection Hc as Hx Hy. rewrite Hx, Hy in E1. congruence.
Qed.

(** X7. A Cell that a later Cell of the same coordinates follows has no
    effect: the grid is the one of the sequence without it. *)
Theorem shadowed_cell_has_no_effect (pre mid post : list Cell) (c1 c2 : Cell) :
  coords c1 = coords c2 ->
  build_grid (pre ++ c1 :: mid ++ c2 :: post) = build_grid (pre ++ mid ++ c2 :: post).
Proof.
  intros Hc. pose proof Hc as [= Hx Hy]. apply build_grid_ext.
  - intros a. rewrite !map_app, !map_cons, !map_app, !map_cons.
    rewrite !elem_of_app, !elem_of_cons, !elem_of_app, !elem_of_cons. rewrite Hx. tauto.
  - intros a. rewrite !map_app, !map_cons, !map_app, !map_cons.
    rewrite !elem_of_app, !elem_of_cons, !elem_of_app, !elem_of_cons. rewrite Hy. tauto.
  - intros cx cy. rewrite !last_at_app.
    rewrite (last_at_shadowed c1 (mid ++ c2 :: post) c2 cx cy Hc).
    2:{ rewrite elem_of_app, elem_of_cons. tauto. }
    by rewrite (last_at_app mid).
Qed.

Lemma shadowed_cell_has_no_effect_witness :
  let c1 := mkCell 1 2 (lit "p") in
  let c2 := mkCell 1 2 (lit "q") in
  build_grid ([mkCell 3 0 (lit "z")] ++ c1 :: [mkCell 0 4 (lit "y")] ++ c2 :: [mkCell 2 2 (lit "w")])
  = build_grid ([mkCell 3 0 (lit "z")] ++ [mkCell 0 4 (lit "y")] ++ c2 :: [mkCell 2 2 (lit "w")]).
Proof.
  apply (shadowed_cell_has_no_effect [mkCell 3 0 (lit "z")] [mkCell 0 4 (lit "y")]
           [mkCell 2 2 (lit "w")] (mkCell 1 2 (lit "p")) (mkCell 1 2 (lit "q"))).
  reflexivity.
Defined.

Lemma coords_injective_on (cells : list Cell) (a b : Cell) :
  NoDup (map coords cells) -> a ∈ cells -> b ∈ cells -> coords a = coords b -> a = b.
Proof.
  induction cells as [|c cells IH]; [by intros _ ?%not_elem_of_nil |].
  simpl. intros Hnd Ha Hb Hab. apply NoDup_cons in Hnd as [Hc Hnd].
  apply elem_of_cons in Ha as [-> | Ha], Hb as [-> | Hb]; [done | | | by apply IH].
  - exfalso. apply Hc. rewrite Hab. by apply list_elem_of_fmap_2.
  - exfalso. apply Hc. rewrite <- Hab. by apply list_elem_of_fmap_2.
Qed.

Lemma last_at_unique (cells : list Cell) (c : Cell) :
  NoDup (map coords cells) -> c ∈ cells -> last_at cells (x c) (y c) = Some c.
Proof.
  intros Hnd Hin. destruct (last_at cells (x c) (y c)) as [c'|] eqn:E.
  - apply last_at_some in E as (Hin' & Hx & Hy). f_equal.
    apply (coords_injective_on cells); [done | done | done |]. unfold coords. congruence.
  - apply last_at_none in E. rewrite Forall_forall in E. specialize (E c Hin).
    unfold at_xy in E. by rewrite !Z.eqb_refl in E.
Qed.

(** X8. Where no two Cells have the same coordinates, the grid does not
    depend on the order of the Cells. *)
Theorem distinct_cells_order_irrelevant (cells cells' : list Cell) :
  NoDup (map coords cells) -> cells ≡ₚ cells' ->
  build_grid cells = build_grid cells'.
Proof.
  intros Hnd Hp.
  assert (NoDup (map coords cells')) as Hnd'.
  { eapply NoDup_Permutation_proper; [| exact Hnd]. symmetry. by apply fmap_Permutation. }
  assert (forall c, c ∈ cells <-> c ∈ cells') as Hin by (intros c; by rewrite Hp).
  apply build_grid_ext.
  - intros a. by rewrite (fmap_Permutation x _ _ Hp).
  - intros a. by rewrite (fmap_Permutation y _ _ Hp).
  - intros cx cy. destruct (last_at cells cx cy) as [c|] eqn:E.
    + apply last_at_some in E as (Hc & <- & <-).
      by rewrite (last_at_unique cells' c Hnd') by by apply Hin.
    + destruct (last_at cells' cx cy) as [c'|] eqn:E'; [| done]. exfalso.
      apply last_at_some in E' as (Hc' & <- & <-).
      rewrite (last_at_unique cells c' Hnd) in E by by apply Hin. done.
Qed.

Lemma distinct_cells_order_irrelevant_witness :
  NoDup (map coords three_cells) /\ three_cells ≡ₚ rev three_cells
  /\ build_grid three_cells = build_grid (rev three_cells).
Proof.
  assert (NoDup (map coords three_cells)) as Hnd.
  { apply (bool_decide_unpack (NoDup (map coords three_cells))). reflexivity. }
  assert (three_cells ≡ₚ rev three_cells) as Hp.
  { apply Permutation_rev. }
  split; [exact Hnd |]. split; [exact Hp |].
  exact (distinct_cells_order_irrelevant three_cells (rev three_cells) Hnd Hp).
Defined.

(** ** [int] on a cleaned text: further properties *)

Lemma Py_ISSPACE_isspace (c : char) : Py_ISSPACE c = true -> isspace c = true.
Proof.
  unfold Py_ISSPACE, isspace, in_range.
  rewrite !orb_true_iff, !andb_true_iff, !N.leb_le, !N.eqb_eq. intros [[? ?] | ->].
  - do 10 left. lia.
  - do 9 left. right. unfold SPACE. lia.
Qed.

Lemma skip_space_id (b : pystr) :
  (forall k, head b = Some k -> Py_ISSPACE k = false) -> skip_space b = b.
Proof. destruct b as [|c b]; [done |]. intros H. simpl. by rewrite (H c eq_refl). Qed.

Lemma skip_space_nil (b : pystr) :
  skip_space b = [] -> Forall (fun c => Py_ISSPACE c = true) b.
Proof.
  induction b as [|c b IH]; [constructor |]. simpl.
  destruct (Py_ISSPACE c) eqn:E; [| done]. intros H. constructor; [done | by apply IH].
Qed.

Lemma span_digits_spec (b : pystr) :
  b = (span_digits b).1 ++ (span_digits b).2
  /\ Forall (fun c => is_digit_or_us c = true) (span_digits b).1.
Proof.
  induction b as [|c b [IH1 IH2]]; [by split; [| constructor] |]. simpl.
  destruct (is_digit_or_us c) eqn:E; [| by split; [| constructor]].
  destruct (span_digits b) as [body rest]. simpl in *. split; [by rewrite <- IH1 |].
  by constructor.
Qed.

Section IntOnCleanText.

Variable unicode_decimal : char -> option N.
Variable int_max_str_digits : nat.

Abbreviation int := (py_int unicode_decimal int_max_str_digits).
Abbreviation buffer := (to_ascii_buffer unicode_decimal).
Abbreviation coord_char' := (coord_char unicode_decimal).

(** A text that [int] accepts and that ends with no whitespace is digits
    and underscores up to its end. *)
Lemma long_from_string_body (b : pystr) (v : Z) :
  long_from_string int_max_str_digits b = Some v ->
  (forall k, last b = Some k -> Py_ISSPACE k = false) ->
  b <> [] /\ Forall (fun c => is_digit_or_us c = true) b.
Proof.
  unfold long_from_string. destruct (span_digits_spec b) as [Hb Hbody].
  destruct (span_digits b) as [body rest]. simpl in *.
  destruct body as [|c body]; [done |].
  destruct (_ =? _)%N; [done |]. destruct (negb _); [done |].
  destruct (over_digit_limit _ _); [done |].
  destruct (skip_space rest) eqn:E; [| done]. intros _ Hlast.
  apply skip_space_nil in E. destruct rest as [|r rest _] using rev_ind.
  - rewrite app_nil_r in Hb. by subst.
  - exfalso. apply Forall_app in E as [_ E]. inversion E as [|? ? Hr _]; subst.
    rewrite (Hlast r) in Hr; [done |].
    rewrite app_assoc. apply last_snoc.
Qed.

Lemma buffer_nonempty (t : pystr) : t <> [] -> buffer t <> [].
Proof.
  destruct t as [|c t]; [done |]. intros _. simpl.
  destruct (_ <? _)%N; [done |]. destruct (isspace c); [done |].
  by destruct (unicode_decimal c).
Qed.

Lemma buffer_head (t : pystr) (k : char) :
  head t = Some k -> isspace k = false ->
  exists k', head (buffer t) = Some k' /\ Py_ISSPACE k' = false
    /\ (k' = PLUS \/ k' = MINUS -> k' = k).
Proof.
  destruct t as [|c t]; [done |]. intros [= ->] Hk. simpl.
  destruct (N.ltb_spec k 127) as [Hlt | Hge].
  - exists k. split; [done |]. split; [| done].
    destruct (Py_ISSPACE k) eqn:E; [| done]. apply Py_ISSPACE_isspace in E. congruence.
  - rewrite Hk. destruct (unicode_decimal k) as [d|].
    + exists (ZERO + d)%N. split; [done |]. unfold Py_ISSPACE, in_range, ZERO, PLUS, MINUS.
      split; [| lia]. rewrite orb_false_iff, andb_false_iff, !N.leb_gt, N.eqb_neq. lia.
    + exists QUESTION. split; [done |]. split; [done |]. by intros [? | ?].
Qed.

Lemma buffer_last (t : pystr) (k : char) :
  last t = Some k -> isspace k = false ->
  exists k', last (buffer t) = Some k' /\ Py_ISSPACE k' = false.
Proof.
  induction t as [|c t IH]; [done |]. intros Hl Hk.
  destruct t as [|c2 t].
  - injection Hl as ->.
    destruct (buffer_head [k] k eq_refl Hk) as (k' & Hh & Hs & _).
    exists k'. split; [| done]. simpl in *.
    destruct (_ <? _)%N; [by injection Hh as -> |]. destruct (isspace k); [by injection Hh as -> |].
    destruct (unicode_decimal k); by injection Hh as ->.
  - rewrite last_cons_cons in Hl. destruct (IH Hl Hk) as (k' & Hk' & Hs).
    assert (forall a, last (a :: buffer (c2 :: t)) = Some k') as Hcons.
    { intros a. pose proof (buffer_nonempty (c2 :: t)) as Hne.
      destruct (buffer (c2 :: t)) as [|b0 bt]; [by destruct Hne |].
      by rewrite last_cons_cons. }
    change (buffer (c :: c2 :: t))
      with (if (c <? 127)%N then c :: buffer (c2 :: t)
            else if isspace c then SPACE :: buffer (c2 :: t)
            else match unicode_decimal c with
                 | Some d => (ZERO + d)%N :: buffer (c2 :: t)
                 | None => [QUESTION]
                 end).
    destruct (_ <? _)%N; [by exists k' |]. destruct (isspace c); [by exists k' |].
    destruct (unicode_decimal c); [by exists k' |]. by exists QUESTION.
Qed.

(** Where the buffer is digits and underscores throughout, so is the
    text, up to the decimal digits of other scripts. *)
Lemma buffer_digits (t : pystr) :
  Forall (fun c => is_digit_or_us c = true) (buffer t) -> Forall coord_char' t.
Proof.
  induction t as [|c t IH]; [constructor |]. simpl.
  destruct (N.ltb_spec c 127) as [Hlt | Hge].
  - intros H. inversion H; subst. constructor; [by left | by apply IH].
  - destruct (isspace c); [intros H; by inversion H |].
    destruct (unicode_decimal c) as [d|] eqn:E; [| intros H; by inversion H].
    intros H. inversion H; subst. constructor; [| by apply IH].
    right. split; [done | by rewrite E].
Qed.

Lemma buffer_cons_sign (c : char) (t : pystr) :
  c = PLUS \/ c = MINUS -> buffer (c :: t) = c :: buffer t.
Proof. by intros [-> | ->]. Qed.

(** A text with no whitespace at its ends that [int] accepts is a sign or
    none, and then characters of a number. *)
Lemma int_accepts_form (t0 : pystr) (v : Z) :
  (forall k, head t0 = Some k -> isspace k = false) ->
  (forall k, last t0 = Some k -> isspace k = false) ->
  int t0 = Some v -> coord_text unicode_decimal t0.
Proof.
  intros Hh Hl Hint.
  destruct t0 as [|c t]; [done |].
  destruct (buffer_head (c :: t) c eq_refl (Hh c eq_refl)) as (c' & Hc' & Hsp & Hsign).
  destruct (last (c :: t)) as [kl|] eqn:Ekl; [| by apply last_None in Ekl].
  destruct (buffer_last (c :: t) kl Ekl (Hl kl eq_refl)) as (kl' & Hkl' & Hspl).
  unfold py_int in Hint. rewrite skip_space_id in Hint.
  2:{ intros k Hk. rewrite Hc' in Hk. by injection Hk as <-. }
  destruct (buffer (c :: t)) as [|b0 b] eqn:Eb; [done |]. injection Hc' as <-.
  assert (b0 = PLUS \/ b0 = MINUS -> c = b0 /\ t <> [] /\ Forall coord_char' t) as Hsigned.
  { intros Hs. specialize (Hsign Hs). subst c. split; [done |].
    rewrite (buffer_cons_sign b0 t Hs) in Eb. injection Eb as <-.
    assert (exists w, long_from_string int_max_str_digits (buffer t) = Some w) as [w Hw].
    { destruct Hs as [-> | ->]; simpl in Hint; [by eexists |].
      destruct (long_from_string _ _); [by eexists | done]. }
    destruct (long_from_string_body _ w Hw) as [Hne Hall].
    { intros k Hk. destruct (buffer t) as [|b1 bt]; [done |].
      rewrite last_cons_cons, Hk in Hkl'. by injection Hkl' as ->. }
    split; [by intros -> | by apply buffer_digits]. }
  destruct (N.eqb_spec b0 PLUS) as [-> | Hp].
  { destruct Hsigned as (-> & Hne & Hall); [by left |].
    exists [PLUS], t. split; [done |]. split; [by right; left | done]. }
  destruct (N.eqb_spec b0 MINUS) as [-> | Hm].
  { destruct Hsigned as (-> & Hne & Hall); [by right |].
    exists [MINUS], t. split; [done |]. split; [by right; right | done]. }
  destruct (long_from_string_body _ v Hint) as [_ Hall].
  { intros k Hk. rewrite Hk in Hkl'. by injection Hkl' as ->. }
  exists [], (c :: t). split; [done |]. split; [by left |]. split; [done |].
  apply buffer_digits. by rewrite Eb.
Qed.

(** X9. A cleaned text that [int] accepts is an optional sign followed by
    digits, underscores and decimal digits of other scripts, at least
    one: a coordinate text with a space, a point or a letter in it is
    refused. *)
Theorem accepted_coordinate_text (s : pystr) (v : Z) :
  int (_clean_text s) = Some v -> coord_text unicode_decimal (_clean_text s).
Proof.
  intros Hint. apply (int_accepts_form _ v); [| | exact Hint].
  - apply clean_text_head.
  - apply clean_text_last.
Qed.

End IntOnCleanText.

Lemma accepted_coordinate_text_witness :
  py_int ascii_decimal 4300 (_clean_text (lit " -1_2 ")) = Some (-12)
  /\ coord_text ascii_decimal (_clean_text (lit " -1_2 ")).
Proof.
  split; [reflexivity |].
  apply (accepted_coordinate_text ascii_decimal 4300 (lit " -1_2 ") (-12)). reflexivity.
Defined.

Lemma coord_text_no_space (ud : char -> option N) (t : pystr) :
  coord_text ud t -> SPACE ∉ t.
Proof.
  intros (sign & body & -> & Hsign & _ & Hbody) Hin.
  apply elem_of_app in Hin as [Hin | Hin].
  - destruct Hsign as [-> | [-> | ->]].
    + by apply not_elem_of_nil in Hin.
    + apply list_elem_of_singleton in Hin. discriminate Hin.
    + apply list_elem_of_singleton in Hin. discriminate Hin.
  - rewrite Forall_forall in Hbody. destruct (Hbody SPACE Hin) as [H | [H _]]; [done |].
    unfold SPACE in H. lia.
Qed.

Lemma decimal_value_from (ds : pystr) (a : Z) :
  all_digits ds -> 0 <= a ->
  0 <= fold_left (fun acc c => 10 * acc + digit_value c) ds a.
Proof.
  intros Hds. revert a. induction Hds as [|c ds Hc _ IH]; intros a Ha; [done |]. simpl.
  apply IH. unfold is_digit, in_range in Hc. apply andb_true_iff in Hc as [H1 H2].
  apply N.leb_le in H1, H2. unfold digit_value. lia.
Qed.

(** X11. A text of ASCII digits, with a plus sign before it or none,
    reads as its decimal value, which is not negative; zeros in front
    change nothing. *)
Theorem digits_read_as_decimal (ud : char -> option N) (lim : nat) (ds : pystr) :
  ds <> [] -> all_digits ds -> over_digit_limit lim (length ds) = false ->
  py_int ud lim ds = Some (decimal_value ds)
  /\ py_int ud lim (PLUS :: ds) = Some (decimal_value ds)
  /\ 0 <= decimal_value ds
  /\ decimal_value (ZERO :: ds) = decimal_value ds.
Proof.
  intros Hne Hds Hlim.
  assert (to_ascii_buffer ud ds = ds) as Hbuf.
  { clear Hne Hlim. induction Hds as [|c ds Hc _ IH]; [done |]. simpl.
    by rewrite (is_digit_ascii c Hc), IH. }
  assert (long_from_string lim ds = Some (decimal_value ds)) as Hlong.
  { unfold long_from_string. rewrite (span_all_digits ds Hds).
    destruct ds as [|c ds']; [done |]. inversion Hds as [|? ? Hc Hds']; subst.
    rewrite (is_digit_not_underscore c Hc), (underscores_ok_all_digits _ Hds).
    by rewrite (digits_of_all_digits _ Hds), Hlim. }
  split; [| split; [| split; [by apply decimal_value_from | done]]].
  - unfold py_int. rewrite Hbuf. destruct ds as [|c ds']; [done |].
    inversion Hds as [|? ? Hc Hds']; subst.
    assert (Py_ISSPACE c = false /\ (c =? PLUS)%N = false /\ (c =? MINUS)%N = false)
      as (H1 & H2 & H3).
    { unfold is_digit, in_range in Hc. apply andb_true_iff in Hc as [Ha Hb].
      apply N.leb_le in Ha, Hb. unfold Py_ISSPACE, in_range, PLUS, MINUS.
      rewrite orb_false_iff, andb_false_iff, !N.leb_gt, !N.eqb_neq. lia. }
    simpl. by rewrite H1, H2, H3.
  - unfold py_int. change (to_ascii_buffer ud (PLUS :: ds)) with (PLUS :: to_ascii_buffer ud ds).
    by rewrite Hbuf.
Qed.

Lemma digits_read_as_decimal_witness :
  lit "0042" <> [] /\ all_digits (lit "0042")
  /\ over_digit_limit 4300 (length (lit "0042")) = false
  /\ py_int ascii_decimal 4300 (lit "0042") = Some (decimal_value (lit "0042"))
  /\ py_int ascii_decimal 4300 (PLUS :: lit "0042") = Some (decimal_value (lit "0042"))
  /\ 0 <= decimal_value (lit "0042")
  /\ decimal_value (ZERO :: lit "0042") = decimal_value (lit "0042").
Proof.
  assert (all_digits (lit "0042")) as Hds by (repeat constructor).
  split; [discriminate |]. split; [exact Hds |]. split; [reflexivity |].
  exact (digits_read_as_decimal ascii_decimal 4300 (lit "0042") ltac:(discriminate) Hds eq_refl).
Defined.

(** ** The table parser: further properties *)

Section ParserFurther.

Variable unicode_decimal : char -> option N.
Variable int_max_str_digits : nat.
Variable BeautifulSoup : pystr -> node.

Abbreviation int := (py_int unicode_decimal int_max_str_digits).
Abbreviation row_cell' := (row_cell unicode_decimal int_max_str_digits).
Abbreviation parse :=
  (_parse_cells_from_published_doc_html unicode_decimal int_max_str_digits BeautifulSoup).

(** X10. A row whose cleaned [x] or [y] text has a space in it is
    skipped: the digits on the two sides of whitespace are not read as one
    number. *)
Theorem inner_space_row_skipped (tr : node) :
  SPACE ∈ cell_text tr 0 \/ SPACE ∈ cell_text tr 2 -> row_cell' tr = None.
Proof.
  intros H. apply row_cell_none. unfold rejected, cell_text in *.
  destruct H as [H | H].
  - do 3 right. left.
    destruct (int (_clean_text (raw_text tr 0))) as [v|] eqn:E; [| done]. exfalso.
    apply int_accepts_form in E; [by apply coord_text_no_space in E | |].
    + apply clean_text_head.
    + apply clean_text_last.
  - do 4 right.
    destruct (int (_clean_text (raw_text tr 2))) as [v|] eqn:E; [| done]. exfalso.
    apply int_accepts_form in E; [by apply coord_text_no_space in E | |].
    + apply clean_text_head.
    + apply clean_text_last.
Qed.

(** X12. The character of an accepted row is the first character of the
    raw text of its second cell that is no whitespace, and a blank when
    there is none; what follows that character is dropped. *)
Theorem character_is_first_visible (tr : node) (c : Cell) :
  row_cell' tr = Some c ->
  ch c = match visible (raw_text tr 1) with
         | [] => [SPACE]
         | k :: _ => [k]
         end.
Proof.
  intros (_ & _ & _ & ->)%row_cell_some. unfold cell_text.
  assert (visible (_clean_text (raw_text tr 1)) = visible (raw_text tr 1)) as <-.
  { unfold _clean_text, strip.
    by rewrite visible_lstrip, visible_rstrip, visible_sub_ws_runs, visible_replace_char. }
  rewrite choose_ch_cleaned.
  pose proof (clean_text_head (raw_text tr 1)) as H.
  destruct (_clean_text (raw_text tr 1)) as [|k t]; [done |].
  by rewrite visible_cons, (H k eq_refl).
Qed.

End ParserFurther.

Lemma inner_space_row_skipped_witness :
  (SPACE ∈ cell_text (tr ["1 2"; "a"; "3"]) 0 \/ SPACE ∈ cell_text (tr ["1 2"; "a"; "3"]) 2)
  /\ row_cell ascii_decimal 4300 (tr ["1 2"; "a"; "3"]) = None.
Proof.
  assert (SPACE ∈ cell_text (tr ["1 2"; "a"; "3"]) 0) as H.
  { apply list_elem_of_further, list_elem_of_here. }
  split; [by left |].
  exact (inner_space_row_skipped ascii_decimal 4300 (tr ["1 2"; "a"; "3"]) (or_introl H)).
Defined.

Lemma character_is_first_visible_witness :
  let r := tr ["3"; "  AB C "; "4"] in
  let c := mkCell 3 4 (lit "A") in
  row_cell ascii_decimal 4300 r = Some c
  /\ ch c = match visible (raw_text r 1) with
            | [] => [SPACE]
            | k :: _ => [k]
            end.
Proof.
  split; [reflexivity |].
  apply (character_is_first_visible ascii_decimal 4300 (tr ["3"; "  AB C "; "4"])
           (mkCell 3 4 (lit "A"))).
  reflexivity.
Defined.

(** ** The run of the module *)

Section PipelineFurther.

Variable unicode_decimal : char -> option N.
Variable int_max_str_digits : nat.
Variable BeautifulSoup : pystr -> node.
Variable requests_get : pystr -> Z -> fetched.

Abbreviation parse :=
  (_parse_cells_from_published_doc_html unicode_decimal int_max_str_digits BeautifulSoup).
Abbreviation run :=
  (print_secret_message_grid unicode_decimal int_max_str_digits BeautifulSoup requests_get).

(** The run of the module is one such call. *)
Lemma main_outcome :
  main unicode_decimal int_max_str_digits BeautifulSoup requests_get
  = run published_url.
Proof. reflexivity. Qed.

End PipelineFurther.
